(** * actr-cli: the formula-update script and the Python echo templates

    A shallow embedding of
      - [scripts/update-brew-formula.py]      (module [BrewFormula]),
      - [templates/python/echo/client.py]     (module [EchoClient]),
      - [templates/python/echo/server.py]     (module [EchoServer]),
    followed by the properties of the specification that concern them.

    Python [str] values are modelled by [string]: in the script a character
    is a code point below 256, in the messages of the templates a [str]
    stands by its UTF-8 bytes.  The lines typed at the console, which the
    loop strips and compares, are sequences of code points ([PyStr.str]).
    Exceptions are values of [Py.exn]; a computation that may raise
    returns a [Py.result].  The script threads the file system through its
    steps; a coroutine of the templates is a tree of the operations it
    awaits or performs on its workload, run alone or interleaved with
    others. *)

From Stdlib Require Import ZArith QArith Qround Ascii String.
From Stdlib Require Strings.Byte DecimalString.
From stdpp Require Import gmap strings list.

(** ** Python values, exceptions and [str] methods *)

Module Py.

(** The exception classes that the three source files raise or let through,
    all of them subclasses of [Exception]. *)
Inductive exn : Type :=
| ValueError (msg : string)
| FileNotFoundError (msg : string)
| IndexError (msg : string)
| KeyError (msg : string)
| AttributeError (msg : string)
| RuntimeError (msg : string)
| OSError (msg : string)
| ReError (msg : string)            (* re.error *)
| DecodeError (msg : string)        (* google.protobuf.message.DecodeError *)
| ActrRuntimeError (msg : string).  (* actr.ActrRuntimeError *)

Inductive result (A : Type) : Type :=
| Ok (a : A)
| Raise (e : exn).
Arguments Ok {A} a.
Arguments Raise {A} e.

Definition bind {A B} (r : result A) (k : A -> result B) : result B :=
  match r with
  | Ok a => k a
  | Raise e => Raise e
  end.

Definition is_ok {A} (r : result A) : bool :=
  match r with Ok _ => true | Raise _ => false end.

(** The double quote, as a one-character string. *)
Definition dquote : string := String "034"%char EmptyString.
Definition backslash : ascii := "092"%char.

(** [str.isspace] on one character: [Py_UNICODE_ISSPACE] restricted to code
    points below 256.  The same class is what [str.strip], [str.split] and
    the regular-expression class [\s] (on [str] patterns) use. *)
Definition isspace (c : ascii) : bool :=
  let n := nat_of_ascii c in
  ((9 <=? n) && (n <=? 13)) || ((28 <=? n) && (n <=? 32))
  || (n =? 133) || (n =? 160).

(** [Py_UNICODE_ISLINEBREAK] below 256: the boundaries of [str.splitlines]. *)
Definition islinebreak (c : ascii) : bool :=
  let n := nat_of_ascii c in
  ((10 <=? n) && (n <=? 13)) || ((28 <=? n) && (n <=? 30)) || (n =? 133).

(** [s.lstrip()] *)
Fixpoint lstrip (s : string) : string :=
  match s with
  | EmptyString => EmptyString
  | String c r => if isspace c then lstrip r else s
  end.

(** The leading whitespace of [s]: what [(\s* )] captures when the rest of
    the pattern starts with a character that is not whitespace. *)
Fixpoint leading_space (s : string) : string :=
  match s with
  | EmptyString => EmptyString
  | String c r => if isspace c then String c (leading_space r) else EmptyString
  end.

Fixpoint str_rev_onto (s acc : string) : string :=
  match s with
  | EmptyString => acc
  | String c r => str_rev_onto r (String c acc)
  end.
Definition str_rev (s : string) : string := str_rev_onto s EmptyString.

(** [s.rstrip()] and [s.strip()] *)
Definition rstrip (s : string) : string := str_rev (lstrip (str_rev s)).
Definition strip (s : string) : string := rstrip (lstrip s).

(** [c in chars] for a character. *)
Fixpoint char_in (c : ascii) (chars : string) : bool :=
  match chars with
  | EmptyString => false
  | String d r => if Ascii.eqb c d then true else char_in c r
  end.

(** [s.lstrip(chars)]: drops every leading character that occurs in [chars]. *)
Fixpoint lstrip_chars (chars s : string) : string :=
  match s with
  | EmptyString => EmptyString
  | String c r => if char_in c chars then lstrip_chars chars r else s
  end.

(** [s.startswith(p)] *)
Fixpoint startswith (s p : string) {struct p} : bool :=
  match p, s with
  | EmptyString, _ => true
  | String a p', String b s' => Ascii.eqb a b && startswith s' p'
  | String _ _, EmptyString => false
  end.

(** [sub in s] *)
Fixpoint str_in (sub s : string) : bool :=
  startswith s sub ||
  match s with
  | EmptyString => false
  | String _ r => str_in sub r
  end.

(** [s.split()]: the maximal runs of characters that are not whitespace.
    [cur] is the run being read, in reverse. *)
Fixpoint split_acc (cur : string) (s : string) : list string :=
  match s with
  | EmptyString =>
      match cur with EmptyString => [] | _ => [str_rev cur] end
  | String c r =>
      if isspace c then
        match cur with
        | EmptyString => split_acc EmptyString r
        | _ => str_rev cur :: split_acc EmptyString r
        end
      else split_acc (String c cur) r
  end.
Definition split (s : string) : list string := split_acc EmptyString s.

(** [s.splitlines()]: [cur] is the line being read, in reverse; [after_cr]
    says that the previous character was a carriage return, whose line has
    been closed already, so that a line feed that follows belongs to it. *)
Fixpoint splitlines_acc (cur : string) (after_cr : bool) (s : string)
  : list string :=
  match s with
  | EmptyString =>
      match cur with EmptyString => [] | _ => [str_rev cur] end
  | String c r =>
      if after_cr && Ascii.eqb c "010"%char then
        splitlines_acc EmptyString false r
      else if islinebreak c then
        str_rev cur :: splitlines_acc EmptyString (Ascii.eqb c "013"%char) r
      else splitlines_acc (String c cur) false r
  end.
Definition splitlines (s : string) : list string :=
  splitlines_acc EmptyString false s.

(** The line feed, as a one-character string. *)
Definition nl : string := String "010"%char EmptyString.

(** [sep.join(parts)] *)
Definition join (sep : string) (parts : list string) : string :=
  String.concat sep parts.

End Py.

(** ** [scripts/update-brew-formula.py] *)

Module BrewFormula.
Import Py.

(** *** Paths

    A [Path] object is modelled by the string that [str] gives for it:
    [pathlib] keeps a root of one slash, or of exactly two, and the parts
    between slashes that are neither empty nor a single dot. *)

Definition is_slash (c : ascii) : bool := Ascii.eqb c "/".

(** The part read so far ([cur], in reverse), if it is one to keep. *)
Definition path_part (cur : string) : list string :=
  match str_rev cur with
  | EmptyString => []
  | String "."%char EmptyString => []
  | part => [part]
  end.

Fixpoint path_parts_acc (cur : string) (s : string) : list string :=
  match s with
  | EmptyString => path_part cur
  | String c r =>
      if is_slash c then path_part cur ++ path_parts_acc EmptyString r
      else path_parts_acc (String c cur) r
  end.

Definition path_root (s : string) : string :=
  match s with
  | String "/"%char (String "/"%char (String "/"%char _)) => "/"
  | String "/"%char (String "/"%char _) => "//"
  | String "/"%char _ => "/"
  | _ => EmptyString
  end.

(** [str(Path(s))] *)
Definition Path (s : string) : string :=
  match path_root s, path_parts_acc EmptyString s with
  | EmptyString, [] => "."
  | root, parts => root +:+ join "/" parts
  end.

(** The text that [dir / name] is parsed from: [name] alone when it is
    absolute or [dir] is empty, else the two with one slash between. *)
Definition join_raw (dir name : string) : string :=
  match name, dir with
  | String "/"%char _, _ => name
  | _, EmptyString => name
  | _, _ =>
      match str_rev dir with
      | String "/"%char _ => dir +:+ name
      | _ => dir +:+ "/" +:+ name
      end
  end.

(** [str(dir / name)] *)
Definition joinpath (dir name : string) : string := Path (join_raw dir name).

(** *** The file system

    The files on disk are a finite map from paths to their text.
    [on_write p t] is what the disk does when [t] is written to [p]: the
    file is written; or it cannot be opened for writing, and stays as it
    was; or it is opened, which empties it, and the write fails after
    that, leaving [rest] in it.  [writes] logs the paths of the calls of
    [write_text], latest first. *)

Inductive write_outcome : Type :=
| Written
| Refused (e : exn)
| Broken (e : exn) (rest : string).

Record World : Type := {
  files : gmap string string;
  writes : list string;
  on_write : string -> string -> write_outcome;
}.

(** A script step: it reads or changes the world and returns or raises.
    After a raise the world is what it was when the exception left. *)
Definition IO (A : Type) : Type := World -> result A * World.

Definition ret {A} (a : A) : IO A := fun w => (Ok a, w).
Definition throw {A} (e : exn) : IO A := fun w => (Raise e, w).
Definition lift {A} (r : result A) : IO A := fun w => (r, w).
Definition io_bind {A B} (c : IO A) (k : A -> IO B) : IO B :=
  fun w =>
    match c w with
    | (Ok a, w') => k a w'
    | (Raise e, w') => (Raise e, w')
    end.

Notation "'let*' x := c 'in' k" := (io_bind c (fun x => k))
  (at level 10, x name, c at level 100, k at level 200).

(** [p.exists()] *)
Definition path_exists (p : string) : IO bool :=
  fun w => (Ok (bool_decide (is_Some (files w !! p))), w).

(** [p.read_text()] *)
Definition read_text (p : string) : IO string :=
  fun w =>
    match files w !! p with
    | Some t => (Ok t, w)
    | None => (Raise (FileNotFoundError p), w)
    end.

(** [p.write_text(t)]: it opens the file for writing, which empties it,
    writes and closes. *)
Definition write_text (p t : string) : IO unit :=
  fun w =>
    match on_write w p t with
    | Written =>
        (Ok tt, {| files := <[p := t]> (files w); writes := p :: writes w;
                   on_write := on_write w |})
    | Refused e =>
        (Raise e, {| files := files w; writes := p :: writes w;
                     on_write := on_write w |})
    | Broken e rest =>
        (Raise e, {| files := <[p := rest]> (files w); writes := p :: writes w;
                     on_write := on_write w |})
    end.

(** *** [read_sha] *)

Definition read_sha (dist_dir asset_name : string) : IO string :=
  let sha_path := joinpath dist_dir (asset_name +:+ ".sha256") in
  let* found := path_exists sha_path in
  if negb found then
    throw (FileNotFoundError ("Missing sha256 file: " +:+ sha_path))
  else
    let* t := read_text sha_path in
    match split (strip t) with
    | tok :: _ => ret tok
    | [] => throw (IndexError "list index out of range")
    end.

(** *** [replace_after_marker] *)

(** [for j in range(start, start + n): if p(lines[j]): ... break]: the first
    index of the range whose line satisfies [p]. *)
Fixpoint for_range_find (p : string -> bool) (lines : list string)
    (start n : nat) : option nat :=
  match n with
  | O => None
  | S n' =>
      match lines !! start with
      | Some line =>
          if p line then Some start else for_range_find p lines (S start) n'
      | None => None
      end
  end.

(** [for j in range(start, len(lines))] *)
Definition find_from (p : string -> bool) (lines : list string) (start : nat)
  : option nat :=
  for_range_find p lines start (length lines - start).

(** [line.lstrip().startswith(kw + " ")] for [kw] one of [url], [sha256]. *)
Definition is_key_line (kw : string) (line : string) : bool :=
  startswith (lstrip line) (kw +:+ " ").

(** [re.match(r"(\s* )" + kw, line)], reduced to its group 1: the greedy
    [\s*] takes all the leading whitespace, and giving some back never lets
    [kw] match, since [kw] does not start with whitespace. *)
Definition re_match_indent (kw line : string) : option string :=
  if startswith (lstrip line) kw then Some (leading_space line) else None.

(** [indent = re.match(...).group(1); lines[j] = f'{indent}kw "{value}"'] *)
Definition rewrite_line (kw value : string) (lines : list string) (j : nat)
  : result (list string) :=
  match lines !! j with
  | None => Raise (IndexError "list index out of range")
  | Some line =>
      match re_match_indent kw line with
      | None =>
          Raise (AttributeError "'NoneType' object has no attribute 'group'")
      | Some indent =>
          Ok (<[j := indent +:+ kw +:+ " " +:+ dquote +:+ value +:+ dquote]> lines)
      end
  end.

Definition replace_after_marker (text marker url sha : string) : result string :=
  let lines := splitlines text in
  match find_from (str_in marker) lines 0 with
  | None => Raise (ValueError ("Marker not found: " +:+ marker))
  | Some i =>
      match find_from (is_key_line "url") lines (i + 1) with
      | None =>
          Raise (ValueError ("url line not found after marker: " +:+ marker))
      | Some url_index =>
          bind (rewrite_line "url" url lines url_index) (fun lines1 =>
          match find_from (is_key_line "sha256") lines1 (url_index + 1) with
          | None =>
              Raise (ValueError
                       ("sha256 line not found after marker: " +:+ marker))
          | Some k =>
              bind (rewrite_line "sha256" sha lines1 k) (fun lines2 =>
              Ok (join nl lines2))
          end)
      end
  end.

(** *** The replacement template of [re.subn]

    The replacement string [rf"\1{version}\3"] is compiled by the [re]
    module before the search starts (CPython's [re._parser.parse_template]):
    a backslash followed by digits is a group reference or an octal escape,
    and it takes in the digits that follow it. *)

Inductive template_item : Type :=
| Literal (c : ascii)
| GroupRef (n : nat).

Definition is_digit (c : ascii) : bool :=
  let n := nat_of_ascii c in (48 <=? n) && (n <=? 57).
Definition is_octdigit (c : ascii) : bool :=
  let n := nat_of_ascii c in (48 <=? n) && (n <=? 55).
Definition is_ascii_letter (c : ascii) : bool :=
  let n := nat_of_ascii c in
  ((65 <=? n) && (n <=? 90)) || ((97 <=? n) && (n <=? 122)).
Definition digit_value (c : ascii) : nat := nat_of_ascii c - 48.

(** [ESCAPES]: the backslash escapes a template may hold. *)
Definition template_escape (c : ascii) : option ascii :=
  match c with
  | "a"%char => Some "007"%char
  | "b"%char => Some "008"%char
  | "f"%char => Some "012"%char
  | "n"%char => Some "010"%char
  | "r"%char => Some "013"%char
  | "t"%char => Some "009"%char
  | "v"%char => Some "011"%char
  | "092"%char => Some "092"%char
  | _ => None
  end.

(** [parse_template groups s] is [None] when compiling the template raises
    ([re.error], or [IndexError] for an unknown group name); [groups] is the
    number of groups of the pattern. [parse_group_name] reads the number of
    [\g<number>] up to its closing bracket; the pattern has no named
    group, so that a name that is not a number raises. *)
Fixpoint parse_template (groups : nat) (s : string) {struct s}
  : option (list template_item) :=
  match s with
  | EmptyString => Some []
  | String c r =>
      if negb (Ascii.eqb c backslash) then
        cons (Literal c) <$> parse_template groups r
      else
        match r with
        | EmptyString => None            (* bad escape (end of pattern) *)
        | String e r1 =>
            if Ascii.eqb e "g"%char then
              match r1 with
              | String "<"%char r2 => parse_group_name groups 0 false r2
              | _ => None                (* missing < *)
              end
            else if Ascii.eqb e "0"%char then
              match r1 with
              | String d1 r2 =>
                  if is_octdigit d1 then
                    match r2 with
                    | String d2 r3 =>
                        if is_octdigit d2 then
                          cons (Literal (ascii_of_nat
                                  ((digit_value d1 * 8 + digit_value d2) mod 256)))
                            <$> parse_template groups r3
                        else
                          cons (Literal (ascii_of_nat (digit_value d1)))
                            <$> parse_template groups r2
                    | EmptyString =>
                        cons (Literal (ascii_of_nat (digit_value d1)))
                          <$> parse_template groups r2
                    end
                  else cons (Literal zero) <$> parse_template groups r1
              | EmptyString => Some [Literal zero]
              end
            else if is_digit e then
              let single :=
                if digit_value e <=? groups
                then cons (GroupRef (digit_value e)) <$> parse_template groups r1
                else None                (* invalid group reference *)
              in
              match r1 with
              | String d1 r2 =>
                  if is_digit d1 then
                    let double :=
                      if digit_value e * 10 + digit_value d1 <=? groups
                      then cons (GroupRef (digit_value e * 10 + digit_value d1))
                             <$> parse_template groups r2
                      else None          (* invalid group reference *)
                    in
                    match r2 with
                    | String d2 r3 =>
                        if is_octdigit e && is_octdigit d1 && is_octdigit d2 then
                          let v := digit_value e * 64 + digit_value d1 * 8
                                   + digit_value d2 in
                          if v <=? 255
                          then cons (Literal (ascii_of_nat v))
                                 <$> parse_template groups r3
                          else None      (* octal escape out of range *)
                        else double
                    | EmptyString => double
                    end
                  else single
              | EmptyString => single
              end
            else
              match template_escape e with
              | Some x => cons (Literal x) <$> parse_template groups r1
              | None =>
                  if is_ascii_letter e then None    (* bad escape *)
                  else (fun t => Literal backslash :: Literal e :: t)
                         <$> parse_template groups r1
              end
        end
  end
with parse_group_name (groups : nat) (acc : nat) (seen : bool) (s : string)
    {struct s} : option (list template_item) :=
  match s with
  | EmptyString => None                  (* missing >, unterminated name *)
  | String c r =>
      if Ascii.eqb c ">"%char then
        if seen && (acc <=? groups)
        then cons (GroupRef acc) <$> parse_template groups r
        else None                        (* missing or invalid group *)
      else if is_digit c then
        parse_group_name groups (acc * 10 + digit_value c) true r
      else None                          (* unknown group name *)
  end.

(** The text a compiled template stands for at a match with groups [g]
    (group 0 is the whole match). *)
Fixpoint expand_template (t : list template_item) (g : nat -> string) : string :=
  match t with
  | [] => EmptyString
  | Literal c :: t' => String c (expand_template t' g)
  | GroupRef n :: t' => g n +:+ expand_template t' g
  end.

(** *** The pattern of the version line, under [re.MULTILINE]

    The pattern is: start of a line, group 1 = optional whitespace, the word
    [version], whitespace, a double quote; group 2 = one or more characters
    other than a double quote; group 3 = a double quote.  Each repetition is followed by a character outside its class, so that
    the greedy match is the only one: all the leading whitespace, the word,
    at least one whitespace character, a quote, at least one character that
    is not a quote, a quote. *)

Fixpoint str_drop (n : nat) (s : string) : string :=
  match n, s with
  | S n', String _ r => str_drop n' r
  | _, _ => s
  end.

Definition is_quote (c : ascii) : bool := Ascii.eqb c "034"%char.

Fixpoint until_quote (s : string) : string :=
  match s with
  | EmptyString => EmptyString
  | String c r => if is_quote c then EmptyString else String c (until_quote r)
  end.

Fixpoint from_quote (s : string) : string :=
  match s with
  | EmptyString => EmptyString
  | String c r => if is_quote c then s else from_quote r
  end.

(** A match that starts at the head of [s]: its groups 1 and 2 (group 3 is
    the closing quote). *)
Definition match_version_line (s : string) : option (string * string) :=
  let ws1 := leading_space s in
  let s1 := lstrip s in
  if negb (startswith s1 "version") then None else
  let s2 := str_drop 7 s1 in
  let ws2 := leading_space s2 in
  match ws2, lstrip s2 with
  | String _ _, String q s4 =>
      if negb (is_quote q) then None else
      match until_quote s4, from_quote s4 with
      | String b body, String _ _ =>
          Some (ws1 +:+ "version" +:+ ws2 +:+ dquote, String b body)
      | _, _ => None
      end
  | _, _ => None
  end.

(** The scan of [re.subn]: the leftmost match from each position on, the
    next search starting where the match ended.  [at_bol] says that the
    position is one where [^] matches, [skip] counts the characters of the
    last match that are still ahead. Returns the new text and the count. *)
Fixpoint subn_scan (t : list template_item) (at_bol : bool) (skip : nat)
    (s : string) : string * nat :=
  match s with
  | EmptyString => (EmptyString, 0)
  | String c r =>
      match skip with
      | S k => subn_scan t false k r
      | O =>
          match (if at_bol then match_version_line s else None) with
          | Some (g1, g2) =>
              let whole := g1 +:+ g2 +:+ dquote in
              let g := fun n =>
                match n with
                | 0 => whole | 1 => g1 | 2 => g2 | _ => dquote
                end in
              let '(out, n) := subn_scan t false (String.length whole - 1) r in
              (expand_template t g +:+ out, S n)
          | None =>
              let '(out, n) := subn_scan t (Ascii.eqb c "010"%char) 0 r in
              (String c out, n)
          end
      end
  end.

(** [re.subn(pattern, repl, text, flags=re.MULTILINE)] for that pattern. *)
Definition re_subn_version (repl text : string) : result (string * nat) :=
  match parse_template 3 repl with
  | None => Raise (ReError "invalid replacement template")
  | Some t => Ok (subn_scan t true 0 text)
  end.

(** *** [main] *)

(** The parsed command line: all four options are required. *)
Record Args : Type := {
  arg_formula : string;
  arg_version : string;
  arg_repo : string;
  arg_dist : string;
}.

Definition targets : list (string * string) :=
  [ ("macos-arm64", "aarch64-apple-darwin");
    ("linux-x86_64", "x86_64-unknown-linux-gnu") ].

Record AssetInfo : Type := {
  asset : string;
  url : string;
  sha : string;
}.

(** [version = args.version.lstrip("v")], [tag = f"v{version}"] *)
Definition version_of (arg : string) : string := lstrip_chars "v" arg.
Definition tag_of (arg : string) : string := "v" +:+ version_of arg.

Definition asset_name (version target : string) : string :=
  "actr-" +:+ version +:+ "-" +:+ target +:+ ".tar.gz".

Definition asset_url (repo tag asset : string) : string :=
  "https://github.com/" +:+ repo +:+ "/releases/download/" +:+ tag
    +:+ "/" +:+ asset.

(** [for label, target in targets.items(): assets[label] = {...}] *)
Fixpoint build_assets (args : Args) (ts : list (string * string))
    (assets : gmap string AssetInfo) : IO (gmap string AssetInfo) :=
  match ts with
  | [] => ret assets
  | (label, target) :: ts' =>
      let a := asset_name (version_of (arg_version args)) target in
      let* s := read_sha (Path (arg_dist args)) a in
      build_assets args ts'
        (<[label := {| asset := a;
                       url := asset_url (arg_repo args)
                                (tag_of (arg_version args)) a;
                       sha := s |}]> assets)
  end.

(** [assets[label]] *)
Definition get_asset (assets : gmap string AssetInfo) (label : string)
  : IO AssetInfo :=
  match assets !! label with
  | Some a => ret a
  | None => throw (KeyError label)
  end.

Definition main (args : Args) : IO Z :=
  let version := version_of (arg_version args) in
  let formula_path := Path (arg_formula args) in
  let* text := read_text formula_path in
  let* assets := build_assets args targets ∅ in
  let* sub := lift (re_subn_version
                      (String backslash "1" +:+ version +:+ String backslash "3")
                      text) in
  let '(text, count) := sub in
  if Nat.eqb count 0 then
    throw (ValueError "version line not found in formula")
  else
    let* mac := get_asset assets "macos-arm64" in
    let* text := lift (replace_after_marker text "# TARGET: macos-arm64"
                         (url mac) (sha mac)) in
    let* linux := get_asset assets "linux-x86_64" in
    let* text := lift (replace_after_marker text "# TARGET: linux-x86_64"
                         (url linux) (sha linux)) in
    let* _ := write_text formula_path text in
    ret 0%Z.

End BrewFormula.

(** ** The generated protocol-buffer module [echo_pb2] *)

Module Pb2.
Import Py.

(** Python [bytes] *)
Definition bytes : Type := list Byte.byte.

(** Modelled from the spec: the generated module [generated/echo_pb2] is not
    among the sources.  The request carries a [message], the response a
    [reply] and a [timestamp] (spec 8, scenario 6, and the keyword arguments
    that the templates pass).  A message object also keeps the fields of the
    payload that its schema does not know, and writes them back when it is
    serialized. *)
Record EchoRequest : Type := {
  message : string;
  request_unknown : bytes;
}.

(** Modelled from the spec: the response message of the same generated
    module. *)
Record EchoResponse : Type := {
  reply : string;
  timestamp : Z;
  response_unknown : bytes;
}.

(** [pb2.EchoRequest(message=m)], and [pb2.EchoResponse(reply=r,
    timestamp=t)] for a [t] that the field takes. *)
Definition new_EchoRequest (m : string) : EchoRequest :=
  {| message := m; request_unknown := [] |}.
Definition new_EchoResponse (r : string) (t : Z) : EchoResponse :=
  {| reply := r; timestamp := t; response_unknown := [] |}.

(** Modelled from the spec: the integer type that the schema gives the
    field [timestamp] is not among the sources.  [timestamp_fits] is the
    range of that type; 0, which the client passes, is a value of every
    integer type of the schema language. *)
Class TimestampField : Type := {
  timestamp_fits : Z -> bool;
  timestamp_fits_zero : timestamp_fits 0 = true;
}.

(** [str(t)] for an integer: its decimal digits, after a minus sign when it
    is negative. *)
Definition str_of_int (t : Z) : string :=
  DecimalString.NilZero.string_of_int (Z.to_int t).

(** [pb2.EchoResponse(reply=r, timestamp=t)] for any integer [t]: the
    constructor of a message raises [ValueError] for a value outside the
    range of its field. *)
Definition checked_EchoResponse {field : TimestampField} (r : string) (t : Z)
  : result EchoResponse :=
  if timestamp_fits t then Ok (new_EchoResponse r t)
  else Raise (ValueError ("Value out of range: " +:+ str_of_int t)).

(** The wire format is the business of the schema tooling (spec 6); the
    templates only use parsing, which may raise [DecodeError], and
    serialization. *)
Class Codec : Type := {
  EchoRequest_FromString : bytes -> result EchoRequest;
  EchoRequest_SerializeToString : EchoRequest -> bytes;
  EchoResponse_FromString : bytes -> result EchoResponse;
  EchoResponse_SerializeToString : EchoResponse -> bytes;
}.

End Pb2.

(** ** The boundary of the [actr] runtime *)

Module Actr.
Import Py Pb2.

(** An actor identity: an opaque token that the runtime assigns. *)
Definition ActrId : Type := N.

(** [ActrType(manufacturer, name)] *)
Record ActrType : Type := {
  manufacturer : string;
  name : string;
}.

(** [Dest.actor(id)] *)
Inductive Dest : Type :=
| Dest_actor (id : ActrId).

(** The handle that the runtime passes to hooks and dispatchers: either a
    [Context] already, or the raw handle that [Context(...)] wraps. *)
Inductive ContextArg : Type :=
| RawContext
| WrappedContext.

Inductive LogLevel : Type := INFO | ERROR.

(** The operations at which a coroutine of the templates touches the world
    outside its own locals: the [asyncio.Event] of the workload, the fields
    of the workload object, the runtime, the logger and the clock.  The
    index is the type of the value the operation comes back with. *)
Inductive eff : Type -> Type :=
| ReadyWait : eff unit                         (* await workload.ready.wait() *)
| ReadySet : eff unit                          (* workload.ready.set() *)
| ReadyClear : eff unit                        (* workload.ready.clear() *)
| ReadyIsSet : eff bool                        (* workload.ready.is_set() *)
| GetServerId : eff (option ActrId)            (* workload.server_id *)
| SetServerId (v : option ActrId) : eff unit   (* workload.server_id = v *)
| GetServerType : eff ActrType                 (* workload.server_type *)
| Discover (t : ActrType)
    : eff (result ActrId)                      (* await ctx.discover(t) *)
| Call (d : Dest) (route_key : string) (request : EchoRequest)
    : eff (result bytes)                       (* await ctx.call(d, k, r) *)
| Log (level : LogLevel) (fmt : string) : eff unit
| Time : eff Q.                                (* time.time() *)

(** A coroutine: it returns, raises, or performs an operation and goes on
    with what the operation came back with. *)
Inductive coro (A : Type) : Type :=
| Return (a : A)
| Throw (e : exn)
| Await {X : Type} (op : eff X) (k : X -> coro A).
Arguments Return {A} a.
Arguments Throw {A} e.
Arguments Await {A X} op k.

Fixpoint coro_bind {A B} (c : coro A) (f : A -> coro B) : coro B :=
  match c with
  | Return a => f a
  | Throw e => Throw e
  | Await op k => Await op (fun x => coro_bind (k x) f)
  end.

Definition perform {X} (op : eff X) : coro X := Await op Return.

Definition of_result {A} (r : result A) : coro A :=
  match r with
  | Ok a => Return a
  | Raise e => Throw e
  end.

Notation "'let!' x := c 'in' k" := (coro_bind c (fun x => k))
  (at level 10, x name, c at level 100, k at level 200).
Notation "'do!' c 'in' k" := (coro_bind c (fun _ => k))
  (at level 10, c at level 100, k at level 200).

(** One operation as it shows in a trace. *)
Inductive obs : Type :=
| Obs {X : Type} (op : eff X).

(** How a coroutine that runs alone ends. *)
Inductive outcome (A : Type) : Type :=
| Returned (a : A)
| Raised (e : exn)
| Suspended.           (* it waits for an event that nothing will set *)
Arguments Returned {A} a.
Arguments Raised {A} e.
Arguments Suspended {A}.

Record run_result (S A : Type) : Type := {
  final : S;
  trace : list obs;
  result_of : outcome A;
}.
Arguments final {S A} _.
Arguments trace {S A} _.
Arguments result_of {S A} _.

(** A coroutine run alone, to its end, from the state [s] of its workload.
    [h] performs one operation: the value it comes back with and the state
    after it, or [None] when the coroutine has to wait. *)
Fixpoint run_with {S A} (h : forall X, eff X -> S -> option (X * S))
    (c : coro A) (s : S) : run_result S A :=
  match c with
  | Return a => {| final := s; trace := []; result_of := Returned a |}
  | Throw e => {| final := s; trace := []; result_of := Raised e |}
  | Await op k =>
      match h _ op s with
      | Some (x, s') =>
          let r := run_with h (k x) s' in
          {| final := final r; trace := Obs op :: trace r;
             result_of := result_of r |}
      | None => {| final := s; trace := [Obs op]; result_of := Suspended |}
      end
  end.

End Actr.

(** ** [templates/python/echo/client.py] *)

Module EchoClient.
Import Py Pb2 Actr.

(** The fields of an [EchoClientWorkload]; [ready] is the flag of its
    [asyncio.Event]. *)
Record EchoClientWorkload : Type := {
  server_type : ActrType;
  server_id : option ActrId;
  ready : bool;
}.

(** [EchoClientWorkload.__init__] *)
Definition init : EchoClientWorkload :=
  {| server_type := {| manufacturer := "acme"; name := "EchoService" |};
     server_id := None;
     ready := false |}.

(** [if not isinstance(ctx, Context): ctx = Context(ctx)] *)
Definition ensure_context (ctx : ContextArg) : ContextArg :=
  match ctx with
  | WrappedContext => ctx
  | RawContext => WrappedContext
  end.

Section Dispatcher.
Context {codec : Codec}.

(** [EchoClientDispatcher.dispatch].  The two reads of [workload.server_id]
    have no [await] between them and are one read here. *)
Definition dispatch (route_key : string) (payload : bytes) (ctx : ContextArg)
  : coro bytes :=
  let ctx := ensure_context ctx in
  if negb (String.eqb route_key "echo.EchoService.Echo") then
    Throw (RuntimeError ("Unknown route_key: " +:+ route_key))
  else
    let! request := of_result (EchoRequest_FromString payload) in
    do! perform ReadyWait in
    let! server_id := perform GetServerId in
    match server_id with
    | None =>
        let response := new_EchoResponse "server not available" 0 in
        Return (EchoResponse_SerializeToString response)
    | Some id =>
        let! response_bytes :=
          (let! r := perform (Call (Dest_actor id) "echo.EchoService.Echo"
                                request) in
           of_result r) in
        let! response := of_result (EchoResponse_FromString response_bytes) in
        Return (EchoResponse_SerializeToString response)
    end.

End Dispatcher.

(** [EchoClientWorkload.on_start].  The [try] holds the discovery alone,
    and its [except] clause takes an [ActrRuntimeError] and nothing else:
    any other exception that the discovery raises leaves the hook. *)
Definition on_start (ctx : ContextArg) : coro unit :=
  do! perform (Log INFO "discovering echo service...") in
  let! server_type := perform GetServerType in
  let! found := perform (Discover server_type) in
  match found with
  | Raise (ActrRuntimeError e) =>
      do! perform (Log ERROR "discover failed: %s") in
      do! perform ReadySet in
      Return tt
  | Raise e => Throw e
  | Ok server_id =>
      do! perform (SetServerId (Some server_id)) in
      do! perform ReadySet in
      do! perform (Log INFO "discovered server: %s") in
      Return tt
  end.

(** [EchoClientWorkload.on_stop] *)
Definition on_stop (ctx : ContextArg) : coro unit :=
  do! perform (Log INFO "EchoClientWorkload on_stop") in
  Return tt.

(** *** Running a coroutine of the workload *)

(** What the runtime and the clock answer. *)
Record Runtime : Type := {
  rt_discover : ActrType -> result ActrId;
  rt_call : Dest -> string -> EchoRequest -> result bytes;
  rt_time : Q;
}.

(** One operation on the workload [w]: the value it comes back with and the
    workload after it, or [None] when the coroutine has to wait (the event
    is not set). *)
Definition handle {X} (rt : Runtime) (op : eff X) (w : EchoClientWorkload)
  : option (X * EchoClientWorkload) :=
  match op in eff X return option (X * EchoClientWorkload) with
  | ReadyWait => if ready w then Some (tt, w) else None
  | ReadySet =>
      Some (tt, {| server_type := server_type w; server_id := server_id w;
                   ready := true |})
  | ReadyClear =>
      Some (tt, {| server_type := server_type w; server_id := server_id w;
                   ready := false |})
  | ReadyIsSet => Some (ready w, w)
  | GetServerId => Some (server_id w, w)
  | SetServerId v =>
      Some (tt, {| server_type := server_type w; server_id := v;
                   ready := ready w |})
  | GetServerType => Some (server_type w, w)
  | Discover t => Some (rt_discover rt t, w)
  | Call d k r => Some (rt_call rt d k r, w)
  | Log _ _ => Some (tt, w)
  | Time => Some (rt_time rt, w)
  end.

(** A coroutine of the client run alone, to its end. *)
Definition run {A} (rt : Runtime) (c : coro A) (w : EchoClientWorkload)
  : run_result EchoClientWorkload A :=
  run_with (fun X => handle rt) c w.

(** *** Coroutines that share the workload

    The dispatches of one actor may be in flight together (spec 5): each
    operation of each coroutine is one step on the shared workload, and
    the runtime may answer a discovery or a call with anything. *)

Definition step {A} (w : EchoClientWorkload) (c : coro A)
    (w' : EchoClientWorkload) (c' : coro A) : Prop :=
  match c with
  | Await op k => exists rt x, handle rt op w = Some (x, w') /\ c' = k x
  | _ => False
  end.

Inductive task : Type :=
| Task {A : Type} (c : coro A).

Definition task_step (w : EchoClientWorkload) (t : task)
    (w' : EchoClientWorkload) (t' : task) : Prop :=
  match t with
  | Task c => exists c', step w c w' c' /\ t' = Task c'
  end.

Section Pool.
Context {codec : Codec}.

(** What the runtime starts on the workload: a hook or a dispatch. *)
Inductive workload_op : task -> Prop :=
| op_on_start ctx : workload_op (Task (on_start ctx))
| op_on_stop ctx : workload_op (Task (on_stop ctx))
| op_dispatch route_key payload ctx :
    workload_op (Task (dispatch route_key payload ctx)).

Definition config : Type := EchoClientWorkload * list task.

Inductive pool_step : config -> config -> Prop :=
| pool_spawn w ts t :
    workload_op t -> pool_step (w, ts) (w, ts ++ [t])
| pool_run w ts1 t ts2 w' t' :
    task_step w t w' t' ->
    pool_step (w, ts1 ++ t :: ts2) (w', ts1 ++ t' :: ts2).

(** The configurations that an execution goes through after [c]. *)
Inductive path : config -> list config -> Prop :=
| path_nil c : path c []
| path_cons c c' l : pool_step c c' -> path c' l -> path c (c' :: l).

End Pool.

(** The workloads of an execution, and their readiness flags. *)
Definition ready_flags (l : list config) : list bool :=
  map (fun c => ready (fst c)) l.

End EchoClient.

(** ** [templates/python/echo/server.py] *)

Module EchoServer.
Import Py Pb2 Actr.

(** [int(x)] on a float: the integer part, towards zero.  A float is a
    rational number. *)
Definition int_of_float (x : Q) : Z :=
  if Qle_bool 0 x then Qfloor x else Qceiling x.

(** [EchoService.echo] *)
Definition echo {field : TimestampField} (req : EchoRequest) (ctx : ContextArg)
  : coro EchoResponse :=
  do! perform (Log INFO "server received: %s") in
  let! now := perform Time in
  of_result (checked_EchoResponse ("Echo: " +:+ message req)
               (int_of_float now)).

(** [EchoServerWorkload.on_start] and [on_stop] *)
Definition on_start (ctx : ContextArg) : coro unit :=
  do! perform (Log INFO "EchoServerWorkload on_start") in
  Return tt.
Definition on_stop (ctx : ContextArg) : coro unit :=
  do! perform (Log INFO "EchoServerWorkload on_stop") in
  Return tt.

(** One operation on the server: its workload holds the handler only, so
    that the operations are those of the logger and the clock; [now] is
    what the clock reads.  The handler performs no other operation, and
    there is none to wait for here. *)
Definition handle (now : Q) {X} (op : eff X) (s : unit) : option (X * unit) :=
  match op in eff X return option (X * unit) with
  | Log _ _ => Some (tt, s)
  | Time => Some (now, s)
  | _ => None
  end.

Definition run {A} (now : Q) (c : coro A) : outcome A :=
  result_of (run_with (fun X => handle now) c tt).

Section Dispatcher.
Context {codec : Codec} {field : TimestampField}.

(** Modelled from the spec: the generated [echo_service_actor] module, with
    the [EchoServiceDispatcher] of the server, is not among the sources.
    As spec 4.1 has it, the dispatcher looks the route key up, hands the
    parsed payload to the handler of that method and serializes what the
    handler returns; a route key it does not know fails. *)
Definition dispatch (route_key : string) (payload : bytes) (ctx : ContextArg)
  : coro bytes :=
  if String.eqb route_key "echo.EchoService.Echo" then
    let! request := of_result (EchoRequest_FromString payload) in
    let! response := echo request ctx in
    Return (EchoResponse_SerializeToString response)
  else Throw (RuntimeError ("Unknown route_key: " +:+ route_key)).

(** Modelled from the spec: the runtime is not among the sources.  As spec
    4.2 has it, [call(dest, route_key, request)] hands the route key, as it
    is, and the serialized request to the dispatcher of the actor at
    [dest], and comes back with its response; a destination that does not
    exist, and a dispatch that fails, are call failures.  Here the echo
    server is the one actor, at the identity [server]. *)
Definition call (now : Q) (server : ActrId) (d : Dest) (route_key : string)
    (request : EchoRequest) : result bytes :=
  match d with
  | Dest_actor id =>
      if N.eqb id server then
        match run now (dispatch route_key
                         (EchoRequest_SerializeToString request)
                         WrappedContext) with
        | Returned b => Ok b
        | Raised e => Raise (ActrRuntimeError "call failed")
        | Suspended => Raise (ActrRuntimeError "call failed")
        end
      else Raise (ActrRuntimeError "unreachable destination")
  end.

(** Modelled from the spec: discovery (spec 4.3) resolves a service type to
    the identity registered for it; the echo server is registered as
    [("acme", "EchoService")]. *)
Definition discover (server : ActrId) (t : ActrType) : result ActrId :=
  if String.eqb (manufacturer t) "acme" && String.eqb (name t) "EchoService"
  then Ok server
  else Raise (ActrRuntimeError "no actor of this type").

(** Modelled from the spec: the runtime, which is not among the sources,
    as a client sees it in a system whose echo server runs at [server] and
    whose clock reads [now]. *)
Definition echo_system (now : Q) (server : ActrId) : EchoClient.Runtime :=
  {| EchoClient.rt_discover := discover server;
     EchoClient.rt_call := call now server;
     EchoClient.rt_time := now |}.

End Dispatcher.

End EchoServer.

(** ** A wire format for [echo_pb2] *)

Module Proto3.
Import Py Pb2.

(** The schema [echo.proto] and the module generated from it are not among
    the sources.  This module is the protocol-buffer wire format for the
    schema [EchoRequest { string message = 1 }] and
    [EchoResponse { string reply = 1; uint64 timestamp = 2 }]: a payload is
    a sequence of fields, each a tag (field number and wire type, a
    base-128 varint) and a value.  Groups (wire types 3 and 4) are refused
    here. *)

Definition byte_of_N (n : N) : Byte.byte :=
  match Byte.of_N n with
  | Some b => b
  | None => Byte.x00
  end.

(** The varint of [n], least significant group first, at most [fuel] bytes. *)
Fixpoint encode_varint (fuel : nat) (n : N) : bytes :=
  match fuel with
  | O => []
  | S fuel' =>
      if (n <? 128)%N then [byte_of_N n]
      else byte_of_N (N.lor (N.land n 127) 128)
             :: encode_varint fuel' (N.shiftr n 7)
  end.

(** A 64-bit value takes at most ten bytes. *)
Definition varint (n : N) : bytes := encode_varint 10 (n mod 2 ^ 64)%N.

(** Reads a varint of at most [fuel] bytes: its value, cut to 64 bits, and
    the bytes after it; [None] when the payload ends inside it or the
    varint is too long. *)
Fixpoint decode_varint (fuel : nat) (shift acc : N) (bs : bytes)
  : option (N * bytes) :=
  match fuel with
  | O => None
  | S fuel' =>
      match bs with
      | [] => None
      | b :: rest =>
          let v := Byte.to_N b in
          let acc' := N.lor acc (N.shiftl (N.land v 127) shift) in
          if (v <? 128)%N then Some ((acc' mod 2 ^ 64)%N, rest)
          else decode_varint fuel' (shift + 7)%N acc' rest
      end
  end.

Definition read_varint (bs : bytes) : option (N * bytes) :=
  decode_varint 10 0 0 bs.

(** The value of one field, by wire type. *)
Inductive wire_value : Type :=
| Varint (v : N)
| Fixed64 (raw : bytes)
| LengthDelimited (raw : bytes)
| Fixed32 (raw : bytes).

Definition take_exactly (n : nat) (bs : bytes) : option (bytes * bytes) :=
  if (n <=? length bs)%nat then Some (take n bs, drop n bs) else None.

(** Reads one field: its number, its value, and the bytes after it. *)
Definition read_field (bs : bytes) : option (N * wire_value * bytes) :=
  match read_varint bs with
  | None => None
  | Some (tag, rest) =>
      let number := N.shiftr tag 3 in
      if (number =? 0)%N then None else
      match N.land tag 7 with
      | 0%N =>
          match read_varint rest with
          | Some (v, rest') => Some (number, Varint v, rest')
          | None => None
          end
      | 1%N =>
          match take_exactly 8 rest with
          | Some (raw, rest') => Some (number, Fixed64 raw, rest')
          | None => None
          end
      | 2%N =>
          match read_varint rest with
          | Some (len, rest') =>
              match take_exactly (N.to_nat len) rest' with
              | Some (raw, rest'') => Some (number, LengthDelimited raw, rest'')
              | None => None
              end
          | None => None
          end
      | 5%N =>
          match take_exactly 4 rest with
          | Some (raw, rest') => Some (number, Fixed32 raw, rest')
          | None => None
          end
      | _ => None
      end
  end.

(** The fields of a payload, each with the bytes it was read from; a field
    takes at least one byte, so that [fuel] above the length is enough. *)
Fixpoint read_fields (fuel : nat) (bs : bytes)
  : option (list (N * wire_value * bytes)) :=
  match bs with
  | [] => Some []
  | _ :: _ =>
      match fuel with
      | O => None
      | S fuel' =>
          match read_field bs with
          | None => None
          | Some (number, v, rest) =>
              cons (number, v, take (length bs - length rest) bs)
                <$> read_fields fuel' rest
          end
      end
  end.

(** Well-formed UTF-8, which a [string] field has to be. *)
Definition continuation (b : N) : bool := ((128 <=? b) && (b <=? 191))%N.

Fixpoint valid_utf8 (bs : list N) : bool :=
  match bs with
  | [] => true
  | b0 :: r0 =>
      if (b0 <? 128)%N then valid_utf8 r0
      else if ((194 <=? b0) && (b0 <=? 223))%N then
        match r0 with
        | b1 :: r1 => continuation b1 && valid_utf8 r1
        | _ => false
        end
      else if ((224 <=? b0) && (b0 <=? 239))%N then
        match r0 with
        | b1 :: b2 :: r2 =>
            continuation b1 && continuation b2
            && (if (b0 =? 224)%N then (160 <=? b1)%N else true)
            && (if (b0 =? 237)%N then (b1 <=? 159)%N else true)
            && valid_utf8 r2
        | _ => false
        end
      else if ((240 <=? b0) && (b0 <=? 244))%N then
        match r0 with
        | b1 :: b2 :: b3 :: r3 =>
            continuation b1 && continuation b2 && continuation b3
            && (if (b0 =? 240)%N then (144 <=? b1)%N else true)
            && (if (b0 =? 244)%N then (b1 <=? 143)%N else true)
            && valid_utf8 r3
        | _ => false
        end
      else false
  end.

Definition read_text_field (raw : bytes) : option string :=
  if valid_utf8 (map Byte.to_N raw)
  then Some (string_of_list_byte raw)
  else None.

(** A string field: nothing when it is empty, as proto3 has it. *)
Definition write_text_field (number : N) (s : string) : bytes :=
  match s with
  | EmptyString => []
  | _ =>
      let raw := list_byte_of_string s in
      varint (N.lor (N.shiftl number 3) 2)
        ++ varint (N.of_nat (length raw)) ++ raw
  end.

Definition write_uint64_field (number : N) (v : Z) : bytes :=
  if (v =? 0)%Z then []
  else varint (N.shiftl number 3) ++ varint (Z.to_N (v mod 2 ^ 64)).

Fixpoint request_of_fields (fs : list (N * wire_value * bytes))
    (m : EchoRequest) : result EchoRequest :=
  match fs with
  | [] => Ok m
  | (1%N, LengthDelimited raw, _) :: fs' =>
      match read_text_field raw with
      | Some s =>
          request_of_fields fs'
            {| message := s; request_unknown := request_unknown m |}
      | None => Raise (DecodeError "Error parsing message")
      end
  | (_, _, orig) :: fs' =>
      request_of_fields fs'
        {| message := message m;
           request_unknown := request_unknown m ++ orig |}
  end.

Fixpoint response_of_fields (fs : list (N * wire_value * bytes))
    (m : EchoResponse) : result EchoResponse :=
  match fs with
  | [] => Ok m
  | (1%N, LengthDelimited raw, _) :: fs' =>
      match read_text_field raw with
      | Some s =>
          response_of_fields fs'
            {| reply := s; timestamp := timestamp m;
               response_unknown := response_unknown m |}
      | None => Raise (DecodeError "Error parsing message")
      end
  | (2%N, Varint v, _) :: fs' =>
      response_of_fields fs'
        {| reply := reply m; timestamp := Z.of_N v;
           response_unknown := response_unknown m |}
  | (_, _, orig) :: fs' =>
      response_of_fields fs'
        {| reply := reply m; timestamp := timestamp m;
           response_unknown := response_unknown m ++ orig |}
  end.

(** Modelled from the spec: [pb2.EchoRequest.FromString], of the generated
    module that is not among the sources, on the wire format above. *)
Definition parse_request (payload : bytes) : result EchoRequest :=
  match read_fields (S (length payload)) payload with
  | None => Raise (DecodeError "Error parsing message")
  | Some fs => request_of_fields fs (new_EchoRequest EmptyString)
  end.

(** Modelled from the spec: [pb2.EchoResponse.FromString], likewise. *)
Definition parse_response (payload : bytes) : result EchoResponse :=
  match read_fields (S (length payload)) payload with
  | None => Raise (DecodeError "Error parsing message")
  | Some fs => response_of_fields fs (new_EchoResponse EmptyString 0)
  end.

(** Modelled from the spec: [SerializeToString] of the two messages, of the
    generated module that is not among the sources: the known fields that
    are not empty, in the order of their numbers, then the unknown ones. *)
Definition serialize_request (m : EchoRequest) : bytes :=
  write_text_field 1 (message m) ++ request_unknown m.

Definition serialize_response (m : EchoResponse) : bytes :=
  write_text_field 1 (reply m) ++ write_uint64_field 2 (timestamp m)
    ++ response_unknown m.

(** Modelled from the spec: the generated [echo_pb2], which is not among
    the sources, as the codec of this wire format. *)
#[export] Instance codec : Codec := {|
  EchoRequest_FromString := parse_request;
  EchoRequest_SerializeToString := serialize_request;
  EchoResponse_FromString := parse_response;
  EchoResponse_SerializeToString := serialize_response;
|}.

(** Modelled from the spec: the range of a [uint64] field, for the
    timestamp of that schema. *)
#[export] Instance uint64_timestamp : TimestampField := {|
  timestamp_fits := fun t => ((0 <=? t) && (t <? 2 ^ 64))%Z;
  timestamp_fits_zero := eq_refl;
|}.

End Proto3.

(** * What the properties are stated with *)

(** ** The formula-update script *)

Module BrewFormulaSpec.
Import Py BrewFormula.

(** [n] copies of the letter v. *)
Fixpoint vs (n : nat) : string :=
  match n with
  | O => EmptyString
  | S n' => String "v" (vs n')
  end.

(** The command line [args] with another version argument. *)
Definition with_version (args : Args) (v : string) : Args :=
  {| arg_formula := arg_formula args; arg_version := v;
     arg_repo := arg_repo args; arg_dist := arg_dist args |}.

(** [j] is the first index from [start] on whose line satisfies [p]. *)
Definition first_index_from (p : string -> bool) (lines : list string)
    (start j : nat) : Prop :=
  start <= j
  /\ (exists l, lines !! j = Some l /\ p l = true)
  /\ forall j' l', start <= j' -> j' < j -> lines !! j' = Some l' -> p l' = false.

(** The line that takes the place of [line]: its indentation, the key word,
    and the value in quotes. *)
Definition new_line (kw value line : string) : string :=
  leading_space line +:+ kw +:+ " " +:+ dquote +:+ value +:+ dquote.

(** The returned text is the lines of [text], joined by line feeds, with the
    url line [j] and the sha256 line [k] replaced, each keeping its
    indentation; [from i] is where the search for the url line starts when
    the first line with the marker is [i]. *)
Definition replaced (from : nat -> nat) (text marker url sha out : string)
  : Prop :=
  let lines := splitlines text in
  exists i j k line_j line_k,
    first_index_from (str_in marker) lines 0 i
    /\ first_index_from (is_key_line "url") lines (from i) j
    /\ first_index_from (is_key_line "sha256") lines (S j) k
    /\ lines !! j = Some line_j
    /\ lines !! k = Some line_k
    /\ let lines' := <[k := new_line "sha256" sha line_k]>
                       (<[j := new_line "url" url line_j]> lines) in
       out = join nl lines'
       /\ length lines' = length lines
       /\ (forall n, n <> j -> n <> k -> lines' !! n = lines !! n)
       /\ leading_space (new_line "url" url line_j) = leading_space line_j
       /\ leading_space (new_line "sha256" sha line_k) = leading_space line_k.

(** The search for the url line starts on the line after the marker line. *)
Definition replaced_after_marker_line := replaced S.

(** The search for the url line starts on the marker line itself. *)
Definition replaced_from_marker_line := replaced (fun i => i).

(** A formula text with its marker on the line after which to replace. *)
Definition marker_above : string :=
  "  # TARGET: macos-arm64" +:+ nl
  +:+ "  url " +:+ dquote +:+ "https://old/a.tar.gz" +:+ dquote +:+ nl
  +:+ "  sha256 " +:+ dquote +:+ "beef" +:+ dquote +:+ nl.

(** A formula text with its marker at the end of the url line. *)
Definition marker_on_url_line : string :=
  "  url " +:+ dquote +:+ "https://old/a.tar.gz" +:+ dquote
    +:+ " # TARGET: macos-arm64" +:+ nl
  +:+ "  url " +:+ dquote +:+ "https://old/b.tar.gz" +:+ dquote +:+ nl
  +:+ "  sha256 " +:+ dquote +:+ "beef" +:+ dquote +:+ nl.

(** The template that [main] hands to [re.subn]. *)
Definition version_template (version : string) : string :=
  String backslash "1" +:+ version +:+ String backslash "3".

(** The asset record that [main] builds for a target. *)
Definition asset_info (args : Args) (target sha_text : string) : AssetInfo :=
  let a := asset_name (version_of (arg_version args)) target in
  {| asset := a;
     url := asset_url (arg_repo args) (tag_of (arg_version args)) a;
     sha := sha_text |}.

(** What a run of [main] goes through before it writes: every read and
    every text step came back with a value, in this order, and [written]
    is the text that came out of the last one. *)
Definition main_steps (args : Args) (w : World) (written : string) : Prop :=
  exists text0 sha_mac sha_linux text1 count text2,
    read_text (Path (arg_formula args)) w = (Ok text0, w)
    /\ read_sha (Path (arg_dist args))
         (asset_name (version_of (arg_version args)) "aarch64-apple-darwin") w
       = (Ok sha_mac, w)
    /\ read_sha (Path (arg_dist args))
         (asset_name (version_of (arg_version args))
            "x86_64-unknown-linux-gnu") w
       = (Ok sha_linux, w)
    /\ re_subn_version (version_template (version_of (arg_version args))) text0
       = Ok (text1, count)
    /\ count <> 0
    /\ replace_after_marker text1 "# TARGET: macos-arm64"
         (url (asset_info args "aarch64-apple-darwin" sha_mac)) sha_mac
       = Ok text2
    /\ replace_after_marker text2 "# TARGET: linux-x86_64"
         (url (asset_info args "x86_64-unknown-linux-gnu" sha_linux)) sha_linux
       = Ok written.

(** What [main] comes to once these steps have given [written]: the one
    call of [write_text] on the formula file, and 0 when it returns. *)
Definition main_write (args : Args) (w : World) (written : string)
  : result Z * World :=
  match write_text (Path (arg_formula args)) written w with
  | (Ok _, w') => (Ok 0%Z, w')
  | (Raise e, w') => (Raise e, w')
  end.

(** A formula file and the two sha256 files of the release [version]. *)
Definition sample_formula : string :=
  "class Actr < Formula" +:+ nl
  +:+ "  version " +:+ dquote +:+ "0.1.0" +:+ dquote +:+ nl
  +:+ "  # TARGET: macos-arm64" +:+ nl
  +:+ "  url " +:+ dquote +:+ "https://old/mac.tar.gz" +:+ dquote +:+ nl
  +:+ "  sha256 " +:+ dquote +:+ "aaaa" +:+ dquote +:+ nl
  +:+ "  # TARGET: linux-x86_64" +:+ nl
  +:+ "  url " +:+ dquote +:+ "https://old/linux.tar.gz" +:+ dquote +:+ nl
  +:+ "  sha256 " +:+ dquote +:+ "bbbb" +:+ dquote +:+ nl
  +:+ "end" +:+ nl.

Definition sample_world (version : string) : World :=
  {| files :=
       <["Formula/actr.rb" := sample_formula]>
         (<["dist/actr-" +:+ version +:+ "-aarch64-apple-darwin.tar.gz.sha256"
              := "1111  actr.tar.gz" +:+ nl]>
            (<["dist/actr-" +:+ version
                 +:+ "-x86_64-unknown-linux-gnu.tar.gz.sha256"
                 := "2222  actr.tar.gz" +:+ nl]> ∅));
     writes := [];
     on_write := fun _ _ => Written |}.

Definition sample_args (version : string) : Args :=
  {| arg_formula := "Formula/actr.rb"; arg_version := version;
     arg_repo := "actor-rtc/actr-cli"; arg_dist := "dist" |}.

End BrewFormulaSpec.

(** ** The echo client and server *)

Module EchoSpec.
Import Py Pb2 Actr EchoClient.

(** The route of the echo method. *)
Definition echo_route : string := "echo.EchoService.Echo".

(** The payload that the client answers with while it has no server. *)
Definition degraded_payload {codec : Codec} : bytes :=
  EchoResponse_SerializeToString (new_EchoResponse "server not available" 0).

(** A runtime in which no echo server is registered. *)
Definition no_server_runtime : Runtime :=
  {| rt_discover := fun _ => Raise (ActrRuntimeError "no actor of this type");
     rt_call := fun _ _ _ => Raise (ActrRuntimeError "unreachable destination");
     rt_time := 0 |}.

(** A runtime whose discovery raises something else than the error of the
    runtime. *)
Definition crashing_discovery_runtime : Runtime :=
  {| rt_discover := fun _ => Raise (RuntimeError "discovery crashed");
     rt_call := fun _ _ _ => Raise (ActrRuntimeError "unreachable destination");
     rt_time := 0 |}.

(** The client workload once [on_start] has run in the runtime without a
    server. *)
Definition started_without_server : EchoClientWorkload :=
  final (run no_server_runtime (on_start RawContext) init).

(** The operation is [workload.ready.set()]. *)
Definition is_ready_set (o : obs) : bool :=
  match o with
  | Obs op => match op with ReadySet => true | _ => false end
  end.

(** Every call in the trace goes out under the route key [k]. *)
Definition calls_under (k : string) (o : obs) : Prop :=
  match o with
  | Obs op => match op with Call _ k' _ => k' = k | _ => True end
  end.

(** The one operation that resets the event. *)
Definition is_clear {X} (op : eff X) : bool :=
  match op with
  | ReadyClear => true
  | _ => false
  end.

(** A coroutine that never clears the event, however it goes on. *)
Fixpoint clear_free {A} (c : coro A) : Prop :=
  match c with
  | Return _ => True
  | Throw _ => True
  | Await op k => is_clear op = false /\ forall x, clear_free (k x)
  end.

(** The same of a task of the pool. *)
Definition task_clear_free (t : task) : Prop :=
  match t with
  | Task c => clear_free c
  end.

(** The configurations of a coroutine that runs alone in the pool. *)
Fixpoint solo_path {A} (rt : Runtime) (c : coro A) (w : EchoClientWorkload)
  : list config :=
  match c with
  | Await op k =>
      match handle rt op w with
      | Some (x, w') => (w', [Task (k x)]) :: solo_path rt (k x) w'
      | None => []
      end
  | _ => []
  end.

(** Walks through a coroutine that is written out. *)
Ltac walk_coro :=
  cbn;
  repeat match goal with
         | |- _ /\ _ => split
         | |- forall _, _ => intro
         | |- _ = false => reflexivity
         | |- True => exact I
         | |- clear_free (match ?x with _ => _ end) => destruct x; cbn
         | |- context [of_result ?r] => destruct r; cbn
         end.

(** An execution: the runtime starts [on_start], which runs to its end in
    a runtime without a server. *)
Definition startup_execution : list config :=
  (init, [Task (on_start RawContext)])
    :: solo_path no_server_runtime (on_start RawContext) init.

End EchoSpec.

(** ** Text as the console reads it *)

Module PyStr.

(** A Python [str] is a sequence of code points: the integers below
    0x110000, the surrogates among them. *)
Record code_point : Type := CodePoint {
  ord : N;
  ord_ok : (ord <? 0x110000)%N = true;
}.
Definition str : Type := list code_point.

(** The code point of a character of a source literal; the literals of the
    console loop are ASCII. *)
Definition of_ascii (c : ascii) : code_point :=
  CodePoint (N_of_ascii c)
    ltac:(destruct c as [[] [] [] [] [] [] [] []]; reflexivity).
Fixpoint of_string (s : string) : str :=
  match s with
  | EmptyString => []
  | String c r => of_ascii c :: of_string r
  end.

(** [a == b] on two [str] *)
Fixpoint eqb (a b : str) : bool :=
  match a, b with
  | [], [] => true
  | c :: a', d :: b' => (ord c =? ord d)%N && eqb a' b'
  | _, _ => false
  end.

(** [Py_UNICODE_ISSPACE]: the class that [str.strip] removes. *)
Definition isspace (c : code_point) : bool :=
  let n := ord c in
  (((0x9 <=? n) && (n <=? 0xd)) || ((0x1c <=? n) && (n <=? 0x20))
   || (n =? 0x85) || (n =? 0xa0) || (n =? 0x1680)
   || ((0x2000 <=? n) && (n <=? 0x200a))
   || (n =? 0x2028) || (n =? 0x2029) || (n =? 0x202f) || (n =? 0x205f)
   || (n =? 0x3000))%N.

(** [s.lstrip()], [s.rstrip()] and [s.strip()] *)
Fixpoint lstrip (s : str) : str :=
  match s with
  | [] => []
  | c :: r => if isspace c then lstrip r else s
  end.
Definition rstrip (s : str) : str := rev (lstrip (rev s)).
Definition strip (s : str) : str := rstrip (lstrip s).

(** The surrogates, which have no UTF-8 encoding. *)
Definition is_surrogate (c : code_point) : bool :=
  ((0xd800 <=? ord c) && (ord c <=? 0xdfff))%N.

(** The UTF-8 bytes of a code point that is not a surrogate. *)
Definition utf8_code_point (c : code_point) : string :=
  let n := ord c in
  if (n <? 0x80)%N then String (ascii_of_N n) EmptyString
  else if (n <? 0x800)%N then
    String (ascii_of_N (0xc0 + n / 0x40))
      (String (ascii_of_N (0x80 + n mod 0x40)) EmptyString)
  else if (n <? 0x10000)%N then
    String (ascii_of_N (0xe0 + n / 0x1000))
      (String (ascii_of_N (0x80 + (n / 0x40) mod 0x40))
         (String (ascii_of_N (0x80 + n mod 0x40)) EmptyString))
  else
    String (ascii_of_N (0xf0 + n / 0x40000))
      (String (ascii_of_N (0x80 + (n / 0x1000) mod 0x40))
         (String (ascii_of_N (0x80 + (n / 0x40) mod 0x40))
            (String (ascii_of_N (0x80 + n mod 0x40)) EmptyString))).

(** [s.encode("utf-8")]: the bytes, or nothing where Python raises
    [UnicodeEncodeError], which it does when [s] has a surrogate. *)
Fixpoint encode_utf8 (s : str) : option string :=
  match s with
  | [] => Some EmptyString
  | c :: r =>
      if is_surrogate c then None
      else
        match encode_utf8 r with
        | Some bytes => Some (utf8_code_point c +:+ bytes)
        | None => None
        end
  end.

End PyStr.

(** ** The console loop of [templates/python/echo/client.py] *)

Module EchoApp.
Import Py Pb2 Actr.

(** What the loop does that shows outside: it asks for a line, calls the
    actor through its reference, prints, logs. *)
Inductive app_event : Type :=
| Prompted                                     (* input("> ") *)
| Called (route_key : string) (request : EchoRequest)   (* ref.call(k, r) *)
| Printed (line : string)                      (* print(line) *)
| Logged (level : LogLevel) (fmt : string).    (* logger.info, logger.error *)

(** How [_run_app] ends: it returns; or [input] raises [EOFError] at the
    end of the input and the loop lets it through; or the constructor of
    the request, which is not inside the [try], raises on a line that the
    field does not take. *)
Inductive app_end : Type :=
| AppReturned
| AppInputEnded
| AppRequestRefused.

(** [str(e)] *)
Definition exn_str (e : exn) : string :=
  match e with
  | ValueError m | FileNotFoundError m | IndexError m | AttributeError m
  | RuntimeError m | OSError m | ReError m | DecodeError m
  | ActrRuntimeError m => m
  | KeyError m => "'" +:+ m +:+ "'"
  end.

(** [line in {quit, exit}] *)
Definition is_quit (line : PyStr.str) : bool :=
  PyStr.eqb line (PyStr.of_string "quit")
  || PyStr.eqb line (PyStr.of_string "exit").

(** Modelled from the spec: [pb2.EchoRequest(message=line)] for a [str]:
    the field of the message holds the UTF-8 encoding of the text, and the
    constructor raises when there is none. *)
Definition EchoRequest_of_str (line : PyStr.str) : option EchoRequest :=
  match PyStr.encode_utf8 line with
  | Some message => Some (new_EchoRequest message)
  | None => None
  end.

Section App.
Context {codec : Codec}.

(** What [await ref.call(route_key, request)] comes back with; the number
    is that of the calls made before, so that the answers may change as
    the session goes on. *)
Variable ref_call : nat -> string -> EchoRequest -> result bytes.

(** The [while True] loop of [_run_app] on the lines that [input] returns
    one after the other; [n] counts the calls made so far. *)
Fixpoint app_loop (n : nat) (inputs : list PyStr.str)
  : list app_event * app_end :=
  match inputs with
  | [] => ([Prompted], AppInputEnded)
  | line :: rest =>
      let line := PyStr.strip line in
      if is_quit line then ([Prompted], AppReturned)
      else
        match line with
        | [] =>
            let '(evs, e) := app_loop n rest in (Prompted :: evs, e)
        | _ =>
            match EchoRequest_of_str line with
            | None => ([Prompted], AppRequestRefused)
            | Some request =>
                let '(evs, e) := app_loop (S n) rest in
                match bind (ref_call n "echo.EchoService.Echo" request)
                        EchoResponse_FromString with
                | Ok response =>
                    (Prompted :: Called "echo.EchoService.Echo" request
                       :: Printed ("[Received reply] " +:+ reply response)
                       :: evs,
                     e)
                | Raise err =>
                    (Prompted :: Called "echo.EchoService.Echo" request
                       :: Logged ERROR "app call failed: %s"
                       :: Printed ("[Error] " +:+ exn_str err) :: evs,
                     e)
                end
            end
        end
  end.

(** [_run_app] *)
Definition _run_app (inputs : list PyStr.str) : list app_event * app_end :=
  let '(evs, e) := app_loop 0 inputs in
  (Logged INFO "Echo client app started"
     :: Printed "===== Echo Client App ====="
     :: Printed "Type messages to send to server (type 'quit' to exit):"
     :: evs,
   e).

End App.

End EchoApp.

(** ** What the further properties are stated with *)

Module MoreSpec.
Import Py Pb2 Actr EchoClient EchoApp.

(** The elements of [l] before the first one that satisfies [p]. *)
Fixpoint before_first {A} (p : A -> bool) (l : list A) : list A :=
  match l with
  | [] => []
  | x :: l' => if p x then [] else x :: before_first p l'
  end.

(** Where the console loop stops: at quit or exit, or at a line that the
    request does not take. *)
Definition refused (line : PyStr.str) : bool :=
  existsb PyStr.is_surrogate line.
Definition stops (line : PyStr.str) : bool := is_quit line || refused line.

(** The string is not empty. *)
Definition nonempty (s : string) : bool :=
  match s with
  | EmptyString => false
  | String _ _ => true
  end.

(** The line is not blank. *)
Definition nonblank (line : PyStr.str) : bool :=
  match line with
  | [] => false
  | _ :: _ => true
  end.

(** The lines that a session sends: the lines typed before the first one
    at which the loop stops, without the whitespace around them, the blank
    ones left out. *)
Definition sent_lines (inputs : list PyStr.str) : list PyStr.str :=
  List.filter nonblank (before_first stops (map PyStr.strip inputs)).

(** The UTF-8 bytes of text without surrogates. *)
Fixpoint utf8 (line : PyStr.str) : string :=
  match line with
  | [] => EmptyString
  | c :: r => PyStr.utf8_code_point c +:+ utf8 r
  end.

(** The messages that a session sends: the bytes of its lines. *)
Definition sent_messages (inputs : list PyStr.str) : list string :=
  map utf8 (sent_lines inputs).

(** How a session ends: at the first line at which the loop stops, by
    returning when it is quit or exit; with the input when there is no
    such line. *)
Definition session_end (inputs : list PyStr.str) : app_end :=
  match List.find stops (map PyStr.strip inputs) with
  | Some line => if is_quit line then AppReturned else AppRequestRefused
  | None => AppInputEnded
  end.

(** The calls among the events of the console loop. *)
Definition is_called (ev : app_event) : bool :=
  match ev with
  | Called _ _ => true
  | _ => false
  end.

(** The lines printed among them. *)
Definition is_printed (ev : app_event) : bool :=
  match ev with
  | Printed _ => true
  | _ => false
  end.

(** The operation is a call through the context. *)
Definition is_call (o : obs) : bool :=
  match o with
  | Obs op => match op with Call _ _ _ => true | _ => false end
  end.

(** A runtime whose server is found and fails every call. *)
Definition failing_server_runtime : Runtime :=
  {| rt_discover := fun _ => Ok 7%N;
     rt_call := fun _ _ _ => Raise (ActrRuntimeError "unreachable destination");
     rt_time := 0 |}.

(** Every character of [s] satisfies [p]. *)
Fixpoint all_chars (p : ascii -> bool) (s : string) : bool :=
  match s with
  | EmptyString => true
  | String c r => p c && all_chars p r
  end.

(** No whitespace, and no line boundary, in a string. *)
Definition no_space (s : string) : bool :=
  all_chars (fun c => negb (isspace c)) s.
Definition no_linebreak (s : string) : bool :=
  all_chars (fun c => negb (islinebreak c)) s.

(** Nothing but whitespace in a string. *)
Definition all_space (s : string) : bool := all_chars isspace s.

(** The string is empty or starts with whitespace. *)
Definition space_ahead (s : string) : bool :=
  match s with
  | EmptyString => true
  | String c _ => isspace c
  end.

(** [s.rstrip()], from the left: a character stays when something stays
    after it or when it is not whitespace. *)
Fixpoint rstrip_left (s : string) : string :=
  match s with
  | EmptyString => EmptyString
  | String c r =>
      match rstrip_left r with
      | EmptyString => if isspace c then EmptyString else String c EmptyString
      | String d r' => String c (String d r')
      end
  end.

(** The characters of a string as the literals of a template. *)
Fixpoint literals (s : string) : list BrewFormula.template_item :=
  match s with
  | EmptyString => []
  | String c r => BrewFormula.Literal c :: literals r
  end.

(** No backslash in a string. *)
Definition no_backslash (s : string) : bool :=
  all_chars (fun c => negb (Ascii.eqb c backslash)) s.

(** The string does not start with a decimal digit. *)
Definition no_digit_ahead (s : string) : bool :=
  match s with
  | EmptyString => true
  | String c _ => negb (BrewFormula.is_digit c)
  end.

(** The digit [d] and the character after it, the first of [tail], are two
    octal digits. *)
Definition octal_pair (d : ascii) (tail : string) : bool :=
  BrewFormula.is_octdigit d
  && match tail with
     | EmptyString => false
     | String c _ => BrewFormula.is_octdigit c
     end.

(** The path of the sha256 file of an asset. *)
Definition sha_path (dist_dir asset_name : string) : string :=
  BrewFormula.joinpath dist_dir (asset_name +:+ ".sha256").

End MoreSpec.

(** * Properties *)

(** ** The formula-update script *)

Module BrewFormulaFacts.
Import Py BrewFormula BrewFormulaSpec.

(** *** Version normalization *)

Lemma version_of_v (s : string) : version_of ("v" +:+ s) = version_of s.
Proof. reflexivity. Qed.

Lemma tag_of_v (s : string) : tag_of ("v" +:+ s) = tag_of s.
Proof. reflexivity. Qed.

Lemma version_of_strips_all (s : string) :
  exists n, s = vs n +:+ version_of s /\ startswith (version_of s) "v" = false.
Proof.
  induction s as [|c s IH].
  - exists 0. split; reflexivity.
  - unfold version_of in *. cbn [lstrip_chars char_in].
    destruct (Ascii.eqb_spec c "v") as [->|Hc].
    + destruct IH as (n & Hs & Hv). exists (S n). split; [|exact Hv].
      change (String "v" s = String "v" (vs n +:+ lstrip_chars "v" s)).
      f_equal. exact Hs.
    + exists 0. split; [reflexivity|].
      cbn [startswith].
      destruct (Ascii.eqb_spec "v" c) as [E|_]; [congruence|reflexivity].
Qed.

Lemma io_bind_ext {A B} (c c' : IO A) (k k' : A -> IO B) (w : World) :
  c w = c' w -> (forall a w', k a w' = k' a w') ->
  io_bind c k w = io_bind c' k' w.
Proof.
  intros Hc Hk. unfold io_bind. rewrite Hc.
  destruct (c' w) as [[a|e] w']; [apply Hk|reflexivity].
Qed.

Lemma build_assets_v args s ts assets w :
  build_assets (with_version args ("v" +:+ s)) ts assets w
  = build_assets (with_version args s) ts assets w.
Proof.
  revert assets w. induction ts as [|[label target] ts IH]; intros assets w.
  - reflexivity.
  - cbn [build_assets with_version arg_version arg_dist arg_repo].
    rewrite version_of_v, tag_of_v.
    apply io_bind_ext; [reflexivity|]. intros sha_text w'. apply IH.
Qed.

(** C10: stripping is insensitive to one more leading v.  The version is the
    argument without any of its leading v characters, the tag is v followed
    by the version, and the arguments [s] and v followed by [s] give the
    same version, tag, asset names and download URLs, hence the same run of
    [main]; the three arguments of the example all give 1.2.3 and v1.2.3. *)
Theorem version_normalization_v_prefix (s : string) :
  (exists n, s = vs n +:+ version_of s
             /\ startswith (version_of s) "v" = false)
  /\ tag_of s = "v" +:+ version_of s
  /\ version_of ("v" +:+ s) = version_of s
  /\ tag_of ("v" +:+ s) = tag_of s
  /\ (forall target,
        asset_name (version_of ("v" +:+ s)) target
        = asset_name (version_of s) target)
  /\ (forall repo target,
        asset_url repo (tag_of ("v" +:+ s))
          (asset_name (version_of ("v" +:+ s)) target)
        = asset_url repo (tag_of s) (asset_name (version_of s) target))
  /\ (forall args w,
        main (with_version args ("v" +:+ s)) w = main (with_version args s) w)
  /\ version_of "vv1.2.3" = "1.2.3" /\ tag_of "vv1.2.3" = "v1.2.3"
  /\ version_of "v1.2.3" = "1.2.3" /\ tag_of "v1.2.3" = "v1.2.3"
  /\ version_of "1.2.3" = "1.2.3" /\ tag_of "1.2.3" = "v1.2.3".
Proof.
  split; [apply version_of_strips_all|].
  split; [reflexivity|].
  split; [apply version_of_v|].
  split; [apply tag_of_v|].
  split; [intros; now rewrite version_of_v|].
  split; [intros; now rewrite version_of_v, tag_of_v|].
  split; [|repeat split].
  intros args w. unfold main.
  cbn [with_version arg_version arg_formula].
  rewrite version_of_v.
  apply io_bind_ext; [reflexivity|]. intros text w1.
  apply io_bind_ext; [apply build_assets_v|reflexivity].
Qed.

(** *** The lines that [replace_after_marker] changes *)

Lemma for_range_find_first p lines n start j :
  for_range_find p lines start n = Some j -> first_index_from p lines start j.
Proof.
  revert start. induction n as [|n IH]; intros start H; [discriminate|].
  cbn [for_range_find] in H.
  destruct (lines !! start) as [line|] eqn:Hl; [|discriminate].
  destruct (p line) eqn:Hp.
  - injection H as <-. split; [lia|]. split; [eauto|]. intros; lia.
  - apply IH in H. destruct H as (Hle & Hj & Hmin).
    split; [lia|]. split; [exact Hj|].
    intros j' l' Hge Hlt Hl'.
    destruct (decide (j' = start)) as [->|Hne].
    + rewrite Hl in Hl'. injection Hl' as <-. exact Hp.
    + apply (Hmin j' l'); [lia|exact Hlt|exact Hl'].
Qed.

Lemma find_from_first p lines start j :
  find_from p lines start = Some j -> first_index_from p lines start j.
Proof. apply for_range_find_first. Qed.

Lemma first_index_from_unique p lines start j j' :
  first_index_from p lines start j -> first_index_from p lines start j' ->
  j = j'.
Proof.
  intros (H1 & (l & Hl & Hp) & Hmin) (H1' & (l' & Hl' & Hp') & Hmin').
  destruct (Nat.lt_trichotomy j j') as [Hlt|[->|Hlt]]; [|reflexivity|].
  - specialize (Hmin' j l H1 Hlt Hl). congruence.
  - specialize (Hmin j' l' H1' Hlt Hl'). congruence.
Qed.

(** Past an updated line the lines are the old ones. *)
Lemma first_index_from_insert p (lines : list string) j x k :
  first_index_from p (<[j := x]> lines) (S j) k ->
  first_index_from p lines (S j) k.
Proof.
  intros (Hle & (l & Hl & Hp) & Hmin).
  rewrite list_lookup_insert_ne in Hl by lia.
  split; [exact Hle|]. split; [eauto|].
  intros j' l' Hge Hlt Hl'. apply (Hmin j' l' Hge Hlt).
  rewrite list_lookup_insert_ne by lia. exact Hl'.
Qed.

Lemma startswith_app_l s p q :
  startswith s (p +:+ q) = true -> startswith s p = true.
Proof.
  revert s. induction p as [|a p IH]; intros s H; [reflexivity|].
  change (String a p +:+ q) with (String a (p +:+ q)) in H.
  destruct s as [|b s]; [discriminate|]. cbn [startswith] in *.
  apply andb_true_iff in H. destruct H as [Hab H].
  rewrite Hab. cbn. now apply IH.
Qed.

Lemma leading_space_lstrip s : leading_space s +:+ lstrip s = s.
Proof.
  induction s as [|c s IH]; [reflexivity|]. cbn [leading_space lstrip].
  destruct (isspace c); [|reflexivity].
  change (String c (leading_space s) +:+ lstrip s)
    with (String c (leading_space s +:+ lstrip s)).
  now rewrite IH.
Qed.

Lemma leading_space_indent s c r :
  isspace c = false ->
  leading_space (leading_space s +:+ String c r) = leading_space s.
Proof.
  intros Hc.
  assert (Hnil : leading_space (EmptyString +:+ String c r) = EmptyString).
  { change (leading_space (String c r) = EmptyString).
    cbn [leading_space]. now rewrite Hc. }
  induction s as [|d s IH]; [exact Hnil|].
  cbn [leading_space]. destruct (isspace d) eqn:Hd; [|exact Hnil].
  change (String d (leading_space s) +:+ String c r)
    with (String d (leading_space s +:+ String c r)).
  cbn [leading_space]. now rewrite Hd, IH.
Qed.

Lemma rewrite_line_key kw value (lines : list string) j line :
  lines !! j = Some line -> is_key_line kw line = true ->
  rewrite_line kw value lines j = Ok (<[j := new_line kw value line]> lines).
Proof.
  intros Hl Hk. unfold rewrite_line, re_match_indent. rewrite Hl.
  unfold is_key_line in Hk. apply startswith_app_l in Hk. now rewrite Hk.
Qed.

(** C8, amended: when [replace_after_marker] returns, the returned text is
    the lines of the input joined by line feeds and differs from them in at
    most two lines: the first line strictly after the first line with the
    marker that starts, after its leading whitespace, with the word url
    and a space, and the first line after that one that starts, after its
    leading whitespace, with sha256 and a space.  Each keeps its leading
    whitespace; every other line, the order and the number of lines are
    unchanged. *)
Theorem replace_after_marker_frame (text marker url sha out : string) :
  replace_after_marker text marker url sha = Ok out ->
  replaced_after_marker_line text marker url sha out.
Proof.
  unfold replace_after_marker, replaced_after_marker_line, replaced.
  set (lines := splitlines text). intros H.
  destruct (find_from (str_in marker) lines 0) as [i|] eqn:Hi; [|discriminate].
  rewrite Nat.add_1_r in H.
  destruct (find_from (is_key_line "url") lines (S i)) as [j|] eqn:Hj;
    [|discriminate].
  apply find_from_first in Hi, Hj.
  pose proof Hj as (_ & (line_j & Hlj & Hkj) & _).
  rewrite (rewrite_line_key _ _ _ _ _ Hlj Hkj) in H. cbn [bind] in H.
  rewrite Nat.add_1_r in H.
  destruct (find_from (is_key_line "sha256") _ (S j)) as [k|] eqn:Hk;
    [|discriminate].
  apply find_from_first in Hk.
  pose proof Hk as (Hjk & (line_k & Hlk & Hkk) & _).
  rewrite (rewrite_line_key _ _ _ _ _ Hlk Hkk) in H. cbn [bind] in H.
  injection H as <-.
  apply first_index_from_insert in Hk.
  rewrite list_lookup_insert_ne in Hlk by lia.
  exists i, j, k, line_j, line_k.
  repeat (split; [assumption|]).
  split; [reflexivity|].
  split; [now rewrite !length_insert|].
  split; [intros n Hnj Hnk; now rewrite !list_lookup_insert_ne by congruence|].
  split; apply leading_space_indent; reflexivity.
Qed.

Lemma replace_after_marker_frame_witness :
  replace_after_marker marker_above "# TARGET: macos-arm64" "U" "S"
  = Ok ("  # TARGET: macos-arm64" +:+ nl
        +:+ "  url " +:+ dquote +:+ "U" +:+ dquote +:+ nl
        +:+ "  sha256 " +:+ dquote +:+ "S" +:+ dquote)
  /\ replaced_after_marker_line marker_above "# TARGET: macos-arm64" "U" "S"
       ("  # TARGET: macos-arm64" +:+ nl
        +:+ "  url " +:+ dquote +:+ "U" +:+ dquote +:+ nl
        +:+ "  sha256 " +:+ dquote +:+ "S" +:+ dquote).
Proof.
  split; [reflexivity|].
  apply replace_after_marker_frame. reflexivity.
Defined.

(** C8, as stated, fails: the url line that holds the marker is a line at
    or after the first line with the marker, and it is the first of them
    that starts with url; [replace_after_marker] leaves it as it is and
    replaces the url line below it. *)
Lemma replace_after_marker_skips_marker_line :
  replace_after_marker marker_on_url_line "# TARGET: macos-arm64" "U" "S"
  = Ok ("  url " +:+ dquote +:+ "https://old/a.tar.gz" +:+ dquote
          +:+ " # TARGET: macos-arm64" +:+ nl
        +:+ "  url " +:+ dquote +:+ "U" +:+ dquote +:+ nl
        +:+ "  sha256 " +:+ dquote +:+ "S" +:+ dquote)
  /\ ~ replaced_from_marker_line marker_on_url_line "# TARGET: macos-arm64"
         "U" "S"
         ("  url " +:+ dquote +:+ "https://old/a.tar.gz" +:+ dquote
            +:+ " # TARGET: macos-arm64" +:+ nl
          +:+ "  url " +:+ dquote +:+ "U" +:+ dquote +:+ nl
          +:+ "  sha256 " +:+ dquote +:+ "S" +:+ dquote).
Proof.
  split; [reflexivity|].
  unfold replaced_from_marker_line, replaced.
  set (lines := splitlines marker_on_url_line).
  intros (i & j & k & line_j & line_k & Hi & Hj & Hk & Hlj & Hlk & Hout & _).
  assert (i = 0) as ->.
  { apply (first_index_from_unique _ _ _ _ _ Hi).
    split; [lia|]. split; [eexists; split; reflexivity|]. intros; lia. }
  assert (j = 0) as ->.
  { apply (first_index_from_unique _ _ _ _ _ Hj).
    split; [lia|]. split; [eexists; split; reflexivity|]. intros; lia. }
  assert (k = 2) as ->.
  { apply (first_index_from_unique _ _ _ _ _ Hk).
    split; [lia|]. split; [eexists; split; reflexivity|].
    intros j' l' Hge Hlt Hl'. assert (j' = 1) as -> by lia.
    vm_compute in Hl'. injection Hl' as <-. reflexivity. }
  vm_compute in Hlj, Hlk. injection Hlj as <-. injection Hlk as <-.
  vm_compute in Hout. discriminate Hout.
Qed.

(** *** The formula file is written last, and once *)

Lemma read_text_cases p w :
  (exists t, read_text p w = (Ok t, w))
  \/ (exists e, read_text p w = (Raise e, w)).
Proof. unfold read_text. destruct (files w !! p); eauto. Qed.

Lemma read_sha_cases d a w :
  (exists s, read_sha d a w = (Ok s, w))
  \/ (exists e, read_sha d a w = (Raise e, w)).
Proof.
  unfold read_sha, io_bind, path_exists.
  destruct (bool_decide _); cbn [negb]; [|right; eexists; reflexivity].
  destruct (read_text_cases (joinpath d (a +:+ ".sha256")) w)
    as [[t ->]|[e ->]]; [|eauto].
  destruct (split (strip t)); [right|left]; eexists; reflexivity.
Qed.

Lemma main_after_steps (args : Args) (w : World) (written : string) :
  main_steps args w written -> main args w = main_write args w written.
Proof.
  intros (text0 & sha_mac & sha_linux & text1 & count & text2
          & Hread & Hmac & Hlinux & Hsub & Hcount & Hrep1 & Hrep2).
  unfold main, main_write, io_bind at 1. rewrite Hread.
  unfold io_bind at 1. cbn [build_assets targets]. unfold io_bind at 1.
  rewrite Hmac. unfold io_bind at 1. rewrite Hlinux.
  cbn [ret]. unfold io_bind at 1, lift at 1.
  fold (version_template (version_of (arg_version args))). rewrite Hsub.
  apply Nat.eqb_neq in Hcount. rewrite Hcount.
  unfold io_bind at 1, get_asset at 1.
  rewrite lookup_insert_ne by discriminate. rewrite lookup_insert_eq.
  cbn [ret]. unfold io_bind at 1, lift at 1. cbn [url sha].
  unfold asset_info in Hrep1, Hrep2. cbn [url] in Hrep1, Hrep2.
  rewrite Hrep1.
  unfold io_bind at 1, get_asset at 1. rewrite lookup_insert_eq.
  cbn [ret]. unfold io_bind at 1, lift at 1. cbn [url sha]. rewrite Hrep2.
  unfold io_bind, ret.
  now destruct (write_text (Path (arg_formula args)) written w) as [[[]|e] w'].
Qed.

Lemma main_before_write (args : Args) (w : World) :
  (exists written, main_steps args w written)
  \/ (exists e, main args w = (Raise e, w)
                /\ forall written, ~ main_steps args w written).
Proof.
  unfold main_steps.
  destruct (read_text_cases (Path (arg_formula args)) w)
    as [[text0 Hread]|[e Hread]].
  2:{ right. exists e. split.
      - unfold main, io_bind at 1. now rewrite Hread.
      - intros written (t & _ & _ & _ & _ & _ & H & _). congruence. }
  destruct (read_sha_cases (Path (arg_dist args))
    (asset_name (version_of (arg_version args)) "aarch64-apple-darwin") w)
    as [[sha_mac Hmac]|[e Hmac]].
  2:{ right. exists e. split.
      - unfold main, io_bind at 1. rewrite Hread.
        unfold io_bind at 1. cbn [build_assets targets]. unfold io_bind at 1.
        now rewrite Hmac.
      - intros written (_ & s1 & _ & _ & _ & _ & _ & H & _). congruence. }
  destruct (read_sha_cases (Path (arg_dist args))
    (asset_name (version_of (arg_version args)) "x86_64-unknown-linux-gnu") w)
    as [[sha_linux Hlinux]|[e Hlinux]].
  2:{ right. exists e. split.
      - unfold main, io_bind at 1. rewrite Hread.
        unfold io_bind at 1. cbn [build_assets targets]. unfold io_bind at 1.
        rewrite Hmac. unfold io_bind at 1. now rewrite Hlinux.
      - intros written (_ & _ & s2 & _ & _ & _ & _ & _ & H & _). congruence. }
  destruct (re_subn_version (version_template (version_of (arg_version args)))
              text0) as [[text1 count]|e] eqn:Hsub.
  2:{ right. exists e. split.
      - unfold main, io_bind at 1. rewrite Hread.
        unfold io_bind at 1. cbn [build_assets targets]. unfold io_bind at 1.
        rewrite Hmac. unfold io_bind at 1. rewrite Hlinux.
        cbn [ret]. unfold io_bind at 1, lift at 1.
        fold (version_template (version_of (arg_version args))).
        now rewrite Hsub.
      - intros written (t0 & _ & _ & t1 & c & _ & H0 & _ & _ & H & _).
        rewrite Hread in H0. injection H0 as <-. congruence. }
  destruct (Nat.eqb_spec count 0) as [->|Hcount].
  { right. eexists. split.
    - unfold main, io_bind at 1. rewrite Hread.
      unfold io_bind at 1. cbn [build_assets targets]. unfold io_bind at 1.
      rewrite Hmac. unfold io_bind at 1. rewrite Hlinux.
      cbn [ret]. unfold io_bind at 1, lift at 1.
      fold (version_template (version_of (arg_version args))).
      rewrite Hsub. reflexivity.
    - intros written (t0 & _ & _ & t1 & c & _ & H0 & _ & _ & H & Hc & _).
      rewrite Hread in H0. injection H0 as <-. rewrite Hsub in H.
      injection H as <- <-. now apply Hc. }
  destruct (replace_after_marker text1 "# TARGET: macos-arm64"
              (url (asset_info args "aarch64-apple-darwin" sha_mac)) sha_mac)
    as [text2|e] eqn:Hrep1.
  2:{ right. exists e. split.
      - unfold main, io_bind at 1. rewrite Hread.
        unfold io_bind at 1. cbn [build_assets targets]. unfold io_bind at 1.
        rewrite Hmac. unfold io_bind at 1. rewrite Hlinux.
        cbn [ret]. unfold io_bind at 1, lift at 1.
        fold (version_template (version_of (arg_version args))).
        rewrite Hsub. apply Nat.eqb_neq in Hcount. rewrite Hcount.
        unfold io_bind at 1, get_asset at 1.
        rewrite lookup_insert_ne by discriminate. rewrite lookup_insert_eq.
        cbn [ret]. unfold io_bind at 1, lift at 1. cbn [url sha].
        unfold asset_info in Hrep1. cbn [url] in Hrep1. now rewrite Hrep1.
      - intros written (t0 & s1 & _ & t1 & c & t2 & H0 & H1 & _ & H & _ & H2 & _).
        rewrite Hread in H0. injection H0 as <-.
        rewrite Hmac in H1. injection H1 as <-.
        rewrite Hsub in H. injection H as <- <-. congruence. }
  destruct (replace_after_marker text2 "# TARGET: linux-x86_64"
              (url (asset_info args "x86_64-unknown-linux-gnu" sha_linux))
              sha_linux) as [written|e] eqn:Hrep2.
  - left. exists written.
    exists text0, sha_mac, sha_linux, text1, count, text2.
    repeat split; assumption.
  - right. exists e. split.
    + unfold main, io_bind at 1. rewrite Hread.
      unfold io_bind at 1. cbn [build_assets targets]. unfold io_bind at 1.
      rewrite Hmac. unfold io_bind at 1. rewrite Hlinux.
      cbn [ret]. unfold io_bind at 1, lift at 1.
      fold (version_template (version_of (arg_version args))).
      rewrite Hsub. apply Nat.eqb_neq in Hcount. rewrite Hcount.
      unfold io_bind at 1, get_asset at 1.
      rewrite lookup_insert_ne by discriminate. rewrite lookup_insert_eq.
      cbn [ret]. unfold io_bind at 1, lift at 1. cbn [url sha].
      unfold asset_info in Hrep1, Hrep2. cbn [url] in Hrep1, Hrep2.
      rewrite Hrep1.
      unfold io_bind at 1, get_asset at 1. rewrite lookup_insert_eq.
      cbn [ret]. unfold io_bind at 1, lift at 1. cbn [url sha].
      now rewrite Hrep2.
    + intros written
        (t0 & s1 & s2 & t1 & c & t2 & H0 & H1 & H2 & H & _ & H3 & H4).
      rewrite Hread in H0. injection H0 as <-.
      rewrite Hmac in H1. injection H1 as <-.
      rewrite Hlinux in H2. injection H2 as <-.
      rewrite Hsub in H. injection H as <- <-.
      rewrite Hrep1 in H3. injection H3 as <-. congruence.
Qed.

(** C9: [main] writes the formula file last, and once.  When the read of
    the formula, the reads of both sha256 files, the version substitution
    and both marker replacements have all succeeded, [main] calls
    [write_text] on the formula file, once, with the text that came out of
    them, and returns 0 with that text in the file when the write succeeds.
    When any of these steps raises, [main] raises with every file as it
    was and without a call of [write_text].  Only a write that itself
    fails raises with the formula file changed. *)
Theorem main_atomic (args : Args) (w : World) :
  (forall written,
     main_steps args w written ->
     main args w = main_write args w written
     /\ writes (snd (main args w)) = Path (arg_formula args) :: writes w
     /\ (on_write w (Path (arg_formula args)) written = Written ->
         main args w
         = (Ok 0%Z,
            {| files := <[Path (arg_formula args) := written]> (files w);
               writes := Path (arg_formula args) :: writes w;
               on_write := on_write w |})))
  /\ ((forall written, ~ main_steps args w written) ->
      exists e, main args w = (Raise e, w))
  /\ match main args w with
     | (Ok z, w') =>
         z = 0%Z
         /\ exists written,
              main_steps args w written
              /\ files w' = <[Path (arg_formula args) := written]> (files w)
              /\ writes w' = Path (arg_formula args) :: writes w
     | (Raise e, w') =>
         w' = w
         \/ exists written,
              main_steps args w written
              /\ on_write w (Path (arg_formula args)) written <> Written
              /\ writes w' = Path (arg_formula args) :: writes w
     end.
Proof.
  assert (Hw : forall written,
    main_steps args w written ->
    main args w = main_write args w written
    /\ writes (snd (main args w)) = Path (arg_formula args) :: writes w
    /\ (on_write w (Path (arg_formula args)) written = Written ->
        main args w
        = (Ok 0%Z,
           {| files := <[Path (arg_formula args) := written]> (files w);
              writes := Path (arg_formula args) :: writes w;
              on_write := on_write w |}))).
  { intros written Hsteps. rewrite (main_after_steps _ _ _ Hsteps).
    split; [reflexivity|]. unfold main_write, write_text.
    destruct (on_write w (Path (arg_formula args)) written);
      (split; [reflexivity|]); [reflexivity|discriminate|discriminate]. }
  split; [exact Hw|].
  destruct (main_before_write args w) as [[written Hsteps]|(e & He & Hno)].
  - split; [intros Hnone; now destruct (Hnone written)|].
    destruct (Hw written Hsteps) as (Hm & _ & _). rewrite Hm.
    unfold main_write, write_text.
    destruct (on_write w (Path (arg_formula args)) written) eqn:Ho.
    + split; [reflexivity|]. exists written. auto.
    + right. exists written. rewrite Ho. split; [exact Hsteps|].
      split; [discriminate|reflexivity].
    + right. exists written. rewrite Ho. split; [exact Hsteps|].
      split; [discriminate|reflexivity].
  - split; [intros _; eauto|]. rewrite He. now left.
Qed.

(** *** The script on a sample formula *)

Example splitlines_sample :
  splitlines ("a" +:+ String "013"%char nl +:+ "b" +:+ nl +:+ nl +:+ "c" +:+ nl)
  = ["a"; "b"; EmptyString; "c"].
Proof. reflexivity. Qed.

Example main_sample_writes :
  let '(r, w) := main (sample_args "vnightly") (sample_world "nightly") in
  r = Ok 0%Z
  /\ writes w = ["Formula/actr.rb"]
  /\ files w !! "Formula/actr.rb"
     = Some ("class Actr < Formula" +:+ nl
             +:+ "  version " +:+ dquote +:+ "nightly" +:+ dquote +:+ nl
             +:+ "  # TARGET: macos-arm64" +:+ nl
             +:+ "  url " +:+ dquote
             +:+ "https://github.com/actor-rtc/actr-cli/releases/download/"
             +:+ "vnightly/actr-nightly-aarch64-apple-darwin.tar.gz"
             +:+ dquote +:+ nl
             +:+ "  sha256 " +:+ dquote +:+ "1111" +:+ dquote +:+ nl
             +:+ "  # TARGET: linux-x86_64" +:+ nl
             +:+ "  url " +:+ dquote
             +:+ "https://github.com/actor-rtc/actr-cli/releases/download/"
             +:+ "vnightly/actr-nightly-x86_64-unknown-linux-gnu.tar.gz"
             +:+ dquote +:+ nl
             +:+ "  sha256 " +:+ dquote +:+ "2222" +:+ dquote +:+ nl
             +:+ "end").
Proof. vm_compute. repeat split. Qed.

(** A sha256 file is missing: [read_sha] raises and nothing is written. *)
Example main_sample_missing_sha :
  main (sample_args "vnightly") (sample_world "other")
  = (Raise (FileNotFoundError
              ("Missing sha256 file: "
               +:+ "dist/actr-nightly-aarch64-apple-darwin.tar.gz.sha256")),
     sample_world "other").
Proof. vm_compute. reflexivity. Qed.

(** A version that starts with a digit: in the replacement template the
    backslash and 1 of the group reference take in that digit, the [re]
    module refuses the group it then names, and nothing is written. *)
Example main_sample_numeric_version :
  main (sample_args "v1.2.3") (sample_world "1.2.3")
  = (Raise (ReError "invalid replacement template"), sample_world "1.2.3").
Proof. vm_compute. reflexivity. Qed.

End BrewFormulaFacts.

(** ** The echo client and server *)

Module EchoFacts.
Import Py Pb2 Actr EchoClient EchoSpec.

Section Client.
Context {codec : Codec}.

Lemma run_dispatch_unknown rt w route_key payload ctx :
  route_key <> echo_route ->
  run rt (dispatch route_key payload ctx) w
  = {| final := w; trace := [];
       result_of := Raised (RuntimeError ("Unknown route_key: " +:+ route_key)) |}.
Proof.
  intros Hne. apply String.eqb_neq in Hne. unfold dispatch.
  fold echo_route. now rewrite Hne.
Qed.

Lemma run_dispatch_bad_payload rt w payload ctx e :
  EchoRequest_FromString payload = Raise e ->
  run rt (dispatch echo_route payload ctx) w
  = {| final := w; trace := []; result_of := Raised e |}.
Proof. intros Hp. unfold dispatch, echo_route. cbn. now rewrite Hp. Qed.

Lemma run_dispatch_degraded rt w payload ctx request :
  ready w = true -> server_id w = None ->
  EchoRequest_FromString payload = Ok request ->
  run rt (dispatch echo_route payload ctx) w
  = {| final := w; trace := [Obs ReadyWait; Obs GetServerId];
       result_of := Returned degraded_payload |}.
Proof.
  intros Hr Hs Hp. unfold dispatch, echo_route, run. cbn. rewrite Hp. cbn.
  now rewrite Hr, Hs.
Qed.

(** C1: a route key other than that of the echo method makes [dispatch]
    raise the error that names it as unknown, whatever the payload, the
    context and the workload; no operation is performed and the workload
    is as before, so that the actor goes on serving. *)
Theorem dispatch_unknown_route (route_key : string) (payload : bytes)
    (ctx : ContextArg) :
  route_key <> "echo.EchoService.Echo" ->
  dispatch route_key payload ctx
  = Throw (RuntimeError ("Unknown route_key: " +:+ route_key))
  /\ forall rt w,
       run rt (dispatch route_key payload ctx) w
       = {| final := w; trace := [];
            result_of :=
              Raised (RuntimeError ("Unknown route_key: " +:+ route_key)) |}.
Proof.
  intros Hne. split.
  - apply String.eqb_neq in Hne. unfold dispatch. now rewrite Hne.
  - intros rt w. now apply run_dispatch_unknown.
Qed.

(** C2, amended: a dispatch of the echo route whose payload parses as an
    [EchoRequest], on a workload whose readiness is signaled and whose
    server is absent, returns the serialized response with the reply
    [server not available] and the timestamp 0; it neither waits nor
    calls, and the workload is as before. *)
Theorem dispatch_degraded_when_server_absent (rt : Runtime)
    (w : EchoClientWorkload) (payload : bytes) (ctx : ContextArg)
    (request : EchoRequest) :
  ready w = true -> server_id w = None ->
  EchoRequest_FromString payload = Ok request ->
  run rt (dispatch "echo.EchoService.Echo" payload ctx) w
  = {| final := w; trace := [Obs ReadyWait; Obs GetServerId];
       result_of :=
         Returned (EchoResponse_SerializeToString
                     (new_EchoResponse "server not available" 0)) |}.
Proof. apply run_dispatch_degraded. Qed.

(** C7: every call that a dispatch sends out goes under the route key that
    the dispatch came in with; and a dispatch of the echo route on a ready
    workload that knows its server does send the call, to that server, with
    the request it parsed. *)
Theorem dispatch_forwards_route_key (rt : Runtime) (w : EchoClientWorkload)
    (route_key : string) (payload : bytes) (ctx : ContextArg) :
  Forall (calls_under route_key) (trace (run rt (dispatch route_key payload ctx) w))
  /\ forall id request,
       route_key = "echo.EchoService.Echo" ->
       EchoRequest_FromString payload = Ok request ->
       ready w = true -> server_id w = Some id ->
       trace (run rt (dispatch route_key payload ctx) w)
       = [Obs ReadyWait; Obs GetServerId;
          Obs (Call (Dest_actor id) route_key request)].
Proof.
  split.
  - destruct (String.eqb_spec route_key echo_route) as [->|Hne].
    + unfold dispatch, echo_route, run. cbn.
      destruct (EchoRequest_FromString payload) as [request|e]; cbn;
        [|constructor].
      destruct (ready w); cbn; [|repeat constructor].
      destruct (server_id w) as [id|]; cbn; [|repeat constructor].
      destruct (rt_call rt _ _ _) as [response_bytes|e]; cbn;
        [|repeat constructor].
      destruct (EchoResponse_FromString response_bytes); cbn;
        repeat constructor.
    + rewrite run_dispatch_unknown by exact Hne. constructor.
  - intros id request -> Hp Hr Hs. unfold dispatch, run. cbn. rewrite Hp. cbn.
    rewrite Hr, Hs. cbn.
    destruct (rt_call rt _ _ _) as [response_bytes|e]; cbn; [|reflexivity].
    now destruct (EchoResponse_FromString response_bytes).
Qed.

End Client.

Lemma dispatch_unknown_route_witness :
  "echo.EchoService.Ping" <> "echo.EchoService.Echo"
  /\ (dispatch (codec := Proto3.codec) "echo.EchoService.Ping" [] RawContext
      = Throw (RuntimeError "Unknown route_key: echo.EchoService.Ping")
      /\ forall rt w,
           run rt (dispatch (codec := Proto3.codec) "echo.EchoService.Ping" []
                     RawContext) w
           = {| final := w; trace := [];
                result_of :=
                  Raised (RuntimeError
                            "Unknown route_key: echo.EchoService.Ping") |}).
Proof.
  split; [discriminate|].
  apply (dispatch_unknown_route (codec := Proto3.codec)). discriminate.
Defined.

Lemma dispatch_degraded_when_server_absent_witness :
  ready started_without_server = true
  /\ server_id started_without_server = None
  /\ EchoRequest_FromString (Codec := Proto3.codec)
       [Byte.x0a; Byte.x02; Byte.x68; Byte.x69]
     = Ok (new_EchoRequest "hi")
  /\ run no_server_runtime
       (dispatch (codec := Proto3.codec) "echo.EchoService.Echo"
          [Byte.x0a; Byte.x02; Byte.x68; Byte.x69] RawContext)
       started_without_server
     = {| final := started_without_server;
          trace := [Obs ReadyWait; Obs GetServerId];
          result_of :=
            Returned (EchoResponse_SerializeToString (Codec := Proto3.codec)
                        (new_EchoResponse "server not available" 0)) |}.
Proof.
  split; [reflexivity|]. split; [reflexivity|]. split; [reflexivity|].
  apply (dispatch_degraded_when_server_absent (codec := Proto3.codec)
           no_server_runtime started_without_server _ RawContext
           (new_EchoRequest "hi")); reflexivity.
Defined.

(** C2, as stated, fails: the payload is parsed before readiness and the
    server are looked at, and a payload that is no message (here the one
    byte 255, the start of a varint that never ends) makes the dispatch
    raise, although readiness is signaled and the server is absent. *)
Lemma dispatch_malformed_payload_raises :
  ready started_without_server = true
  /\ server_id started_without_server = None
  /\ result_of (run no_server_runtime
                  (dispatch (codec := Proto3.codec) "echo.EchoService.Echo"
                     [Byte.xff] RawContext)
                  started_without_server)
     = Raised (DecodeError "Error parsing message")
  /\ result_of (run no_server_runtime
                  (dispatch (codec := Proto3.codec) "echo.EchoService.Echo"
                     [Byte.xff] RawContext)
                  started_without_server)
     <> Returned (degraded_payload (codec := Proto3.codec)).
Proof. repeat split. discriminate. Qed.

(** *** Startup *)

Lemma run_on_start_found rt ctx w id :
  rt_discover rt (server_type w) = Ok id ->
  run rt (on_start ctx) w
  = {| final := {| server_type := server_type w; server_id := Some id;
                   ready := true |};
       trace := [Obs (Log INFO "discovering echo service...");
                 Obs GetServerType; Obs (Discover (server_type w));
                 Obs (SetServerId (Some id)); Obs ReadySet;
                 Obs (Log INFO "discovered server: %s")];
       result_of := Returned tt |}.
Proof. intros H. unfold run, on_start. cbn. rewrite H. reflexivity. Qed.

Lemma run_on_start_failed rt ctx w msg :
  rt_discover rt (server_type w) = Raise (ActrRuntimeError msg) ->
  run rt (on_start ctx) w
  = {| final := {| server_type := server_type w; server_id := server_id w;
                   ready := true |};
       trace := [Obs (Log INFO "discovering echo service...");
                 Obs GetServerType; Obs (Discover (server_type w));
                 Obs (Log ERROR "discover failed: %s"); Obs ReadySet];
       result_of := Returned tt |}.
Proof. intros H. unfold run, on_start. cbn. rewrite H. reflexivity. Qed.

Lemma run_on_start_raised rt ctx w e :
  rt_discover rt (server_type w) = Raise e ->
  (forall msg, e <> ActrRuntimeError msg) ->
  run rt (on_start ctx) w
  = {| final := w;
       trace := [Obs (Log INFO "discovering echo service...");
                 Obs GetServerType; Obs (Discover (server_type w))];
       result_of := Raised e |}.
Proof.
  intros H Hne. unfold run, on_start. cbn. rewrite H.
  destruct e; try reflexivity. now destruct (Hne msg).
Qed.

(** C3, amended: a run of [on_start] whose discovery returns an identity,
    or raises [ActrRuntimeError], returns with readiness signaled and has
    set the readiness event exactly once; the identity is then the server
    of the workload, and after the error the server is as it was.  A
    discovery that raises any other exception makes the hook raise that
    exception, with the workload as it was and the event never set. *)
Theorem on_start_signals_ready_once (rt : Runtime) (ctx : ContextArg)
    (w : EchoClientWorkload) :
  let r := run rt (on_start ctx) w in
  ((exists id, rt_discover rt (server_type w) = Ok id)
   \/ (exists msg, rt_discover rt (server_type w)
                   = Raise (ActrRuntimeError msg)) ->
   result_of r = Returned tt
   /\ ready (final r) = true
   /\ length (List.filter is_ready_set (trace r)) = 1)
  /\ (forall id, rt_discover rt (server_type w) = Ok id ->
                 server_id (final r) = Some id)
  /\ (forall msg, rt_discover rt (server_type w) = Raise (ActrRuntimeError msg) ->
                  server_id (final r) = server_id w)
  /\ (forall e, rt_discover rt (server_type w) = Raise e ->
                (forall msg, e <> ActrRuntimeError msg) ->
                result_of r = Raised e
                /\ final r = w
                /\ length (List.filter is_ready_set (trace r)) = 0).
Proof.
  cbv zeta. split; [|split; [|split]].
  - intros [[id Hd]|[msg Hd]].
    + now rewrite (run_on_start_found _ ctx _ _ Hd).
    + now rewrite (run_on_start_failed _ ctx _ _ Hd).
  - intros id Hd. now rewrite (run_on_start_found _ ctx _ _ Hd).
  - intros msg Hd. now rewrite (run_on_start_failed _ ctx _ _ Hd).
  - intros e Hd Hne. now rewrite (run_on_start_raised _ ctx _ _ Hd Hne).
Qed.

(** C3, as stated, fails: the hook catches [ActrRuntimeError] alone, and a
    discovery that raises another exception, here a [RuntimeError], makes
    the hook raise with the readiness event not set. *)
Lemma on_start_other_exception_leaves_unready :
  rt_discover crashing_discovery_runtime (server_type init)
  = Raise (RuntimeError "discovery crashed")
  /\ result_of (run crashing_discovery_runtime (on_start RawContext) init)
     = Raised (RuntimeError "discovery crashed")
  /\ ready (final (run crashing_discovery_runtime (on_start RawContext) init))
     = false
  /\ length (List.filter is_ready_set
               (trace (run crashing_discovery_runtime (on_start RawContext)
                         init)))
     = 0.
Proof. repeat split. Qed.

(** C4: when the discovery fails in [on_start], the hook returns all the
    same, with readiness signaled; the server of the workload is what it
    was, which for a workload as [__init__] made it is [None]; and a
    dispatch of the echo route after that answers, for every payload that
    parses, with the degraded payload. *)
Theorem on_start_discovery_failure (rt : Runtime) (ctx : ContextArg)
    (msg : string) :
  rt_discover rt (server_type init) = Raise (ActrRuntimeError msg) ->
  let r := run rt (on_start ctx) init in
  result_of r = Returned tt
  /\ server_id (final r) = None
  /\ ready (final r) = true
  /\ (forall w, rt_discover rt (server_type w) = Raise (ActrRuntimeError msg) ->
        result_of (run rt (on_start ctx) w) = Returned tt
        /\ server_id (final (run rt (on_start ctx) w)) = server_id w)
  /\ (forall (codec : Codec) payload ctx' request,
        EchoRequest_FromString payload = Ok request ->
        result_of (run rt (dispatch echo_route payload ctx') (final r))
        = Returned degraded_payload).
Proof.
  intros Hd. rewrite (run_on_start_failed _ ctx _ _ Hd).
  cbv zeta. cbn [final result_of server_id ready].
  split; [reflexivity|]. split; [reflexivity|]. split; [reflexivity|].
  split.
  - intros w Hw. now rewrite (run_on_start_failed _ ctx _ _ Hw).
  - intros codec payload ctx' request Hp.
    rewrite (run_dispatch_degraded rt _ payload ctx' request); auto.
Qed.

Lemma on_start_discovery_failure_witness :
  rt_discover no_server_runtime (server_type init)
  = Raise (ActrRuntimeError "no actor of this type")
  /\ result_of (run no_server_runtime (on_start RawContext) init) = Returned tt
  /\ server_id (final (run no_server_runtime (on_start RawContext) init)) = None
  /\ ready (final (run no_server_runtime (on_start RawContext) init)) = true.
Proof.
  split; [reflexivity|].
  pose proof (on_start_discovery_failure no_server_runtime RawContext
                "no actor of this type" eq_refl) as H.
  cbv zeta in H. destruct H as (H1 & H2 & H3 & _).
  repeat split; assumption.
Defined.

(** *** The echo handler and the round trip *)

Lemma int_of_float_pos (now : Q) :
  (1 <= now)%Q -> (1 <= EchoServer.int_of_float now)%Z.
Proof.
  intros H. unfold EchoServer.int_of_float.
  assert (H0 : Qle_bool 0 now = true).
  { apply Qle_bool_iff. apply Qle_trans with (y := 1%Q); [discriminate|exact H]. }
  rewrite H0. apply (Qfloor_resp_le 1 now) in H. exact H.
Qed.

Section RoundTrip.
Context {codec : Codec} {field : TimestampField}.

Lemma run_echo now req ctx :
  EchoServer.run now (EchoServer.echo req ctx)
  = match checked_EchoResponse ("Echo: " +:+ message req)
            (EchoServer.int_of_float now) with
    | Ok response => Returned response
    | Raise e => Raised e
    end.
Proof.
  unfold EchoServer.run, EchoServer.echo. cbn.
  now destruct (checked_EchoResponse _ _).
Qed.

Lemma server_call now server request :
  timestamp_fits (EchoServer.int_of_float now) = true ->
  EchoRequest_FromString (EchoRequest_SerializeToString request) = Ok request ->
  EchoServer.call now server (Dest_actor server) echo_route request
  = Ok (EchoResponse_SerializeToString
          (new_EchoResponse ("Echo: " +:+ message request)
             (EchoServer.int_of_float now))).
Proof.
  intros Hfit Hp. unfold EchoServer.call. rewrite N.eqb_refl.
  unfold EchoServer.dispatch, echo_route. cbn [String.eqb Ascii.eqb Bool.eqb].
  rewrite Hp. unfold EchoServer.run, EchoServer.echo, checked_EchoResponse.
  cbn. rewrite Hfit. reflexivity.
Qed.

Lemma run_dispatch_call rt w payload ctx request id response_bytes response :
  ready w = true -> server_id w = Some id ->
  EchoRequest_FromString payload = Ok request ->
  rt_call rt (Dest_actor id) echo_route request = Ok response_bytes ->
  EchoResponse_FromString response_bytes = Ok response ->
  run rt (dispatch echo_route payload ctx) w
  = {| final := w;
       trace := [Obs ReadyWait; Obs GetServerId;
                 Obs (Call (Dest_actor id) echo_route request)];
       result_of := Returned (EchoResponse_SerializeToString response) |}.
Proof.
  intros Hr Hs Hp Hc Hd. unfold dispatch, run, echo_route in *. cbn.
  rewrite Hp. cbn. rewrite Hr, Hs. cbn. rewrite Hc. cbn. now rewrite Hd.
Qed.

(** C5, amended: for every request with the message [m], the echo handler
    builds its response with the reply [Echo: m] and, as timestamp, the
    whole seconds that the clock of the server reads: when the field takes
    that value the handler returns this response, and otherwise the
    constructor of the message raises [ValueError].  The timestamp is not
    zero when the clock reads one second or more.  In a system whose echo
    server runs at the identity that the discovery of the client came back
    with, whose clock reads one second or more, a value that the field
    takes, and whose payload encoding gives back the request and the
    response that it is given, a dispatch of the echo route with that
    request returns, through the client dispatcher, the response with the
    reply [Echo: m] and that timestamp; for [m] the message [hi] this is
    the scenario of the specification. *)
Theorem echo_reply_and_round_trip (now : Q) :
  (forall req ctx,
     (timestamp_fits (EchoServer.int_of_float now) = true ->
      exists response,
        EchoServer.run now (EchoServer.echo req ctx) = Returned response
        /\ reply response = "Echo: " +:+ message req
        /\ timestamp response = EchoServer.int_of_float now)
     /\ (timestamp_fits (EchoServer.int_of_float now) = false ->
         EchoServer.run now (EchoServer.echo req ctx)
         = Raised (ValueError
                     ("Value out of range: "
                      +:+ str_of_int (EchoServer.int_of_float now)))))
  /\ ((1 <= now)%Q -> EchoServer.int_of_float now <> 0%Z)
  /\ forall server m ctx ctx',
       let request := new_EchoRequest m in
       let response :=
         new_EchoResponse ("Echo: " +:+ m) (EchoServer.int_of_float now) in
       (1 <= now)%Q ->
       timestamp_fits (EchoServer.int_of_float now) = true ->
       EchoRequest_FromString (EchoRequest_SerializeToString request)
       = Ok request ->
       EchoResponse_FromString (EchoResponse_SerializeToString response)
       = Ok response ->
       let rt := EchoServer.echo_system now server in
       let w := final (run rt (on_start ctx) init) in
       server_id w = Some server
       /\ timestamp response <> 0%Z
       /\ result_of (run rt (dispatch "echo.EchoService.Echo"
                               (EchoRequest_SerializeToString request) ctx') w)
          = Returned (EchoResponse_SerializeToString response).
Proof.
  split; [|split].
  - intros req ctx. rewrite run_echo. unfold checked_EchoResponse. split.
    + intros ->. eexists. split; [reflexivity|]. split; reflexivity.
    + intros ->. reflexivity.
  - intros Hnow. pose proof (int_of_float_pos now Hnow). lia.
  - intros server m ctx ctx' request response Hnow Hfit Hreq Hresp rt w.
    assert (Hw : w = {| server_type := server_type init;
                        server_id := Some server; ready := true |}).
    { subst w. now rewrite (run_on_start_found rt ctx init server). }
    split; [now rewrite Hw|].
    split; [pose proof (int_of_float_pos now Hnow); cbn; lia|].
    rewrite (run_dispatch_call rt w _ ctx' request server
               (EchoResponse_SerializeToString response) response);
      [reflexivity|now rewrite Hw|now rewrite Hw|exact Hreq| |exact Hresp].
    subst rt. cbn [EchoServer.echo_system rt_call].
    now rewrite (server_call now server request Hfit Hreq).
Qed.

End RoundTrip.

Lemma echo_reply_and_round_trip_witness :
  (1 <= 1762214400 # 1)%Q
  /\ timestamp_fits (TimestampField := Proto3.uint64_timestamp)
       (EchoServer.int_of_float (1762214400 # 1)) = true
  /\ (exists response,
        EchoServer.run (1762214400 # 1)
          (EchoServer.echo (field := Proto3.uint64_timestamp)
             (new_EchoRequest "hi") WrappedContext)
        = Returned response
        /\ reply response = "Echo: hi"
        /\ timestamp response = 1762214400%Z)
  /\ result_of
       (run (EchoServer.echo_system (codec := Proto3.codec)
               (field := Proto3.uint64_timestamp) (1762214400 # 1) 7%N)
          (dispatch (codec := Proto3.codec) "echo.EchoService.Echo"
             (EchoRequest_SerializeToString (Codec := Proto3.codec)
                (new_EchoRequest "hi")) RawContext)
          (final (run (EchoServer.echo_system (codec := Proto3.codec)
                         (field := Proto3.uint64_timestamp)
                         (1762214400 # 1) 7%N)
                    (on_start RawContext) init)))
     = Returned (EchoResponse_SerializeToString (Codec := Proto3.codec)
                   (new_EchoResponse "Echo: hi" 1762214400)).
Proof.
  assert (Hnow : (1 <= 1762214400 # 1)%Q) by (unfold Qle; cbn; lia).
  split; [exact Hnow|]. split; [reflexivity|].
  destruct (echo_reply_and_round_trip (codec := Proto3.codec)
              (field := Proto3.uint64_timestamp) (1762214400 # 1))
    as (Hecho & _ & Htrip).
  split; [exact (proj1 (Hecho (new_EchoRequest "hi") WrappedContext) eq_refl)|].
  exact (proj2 (proj2 (Htrip 7%N "hi" RawContext RawContext Hnow eq_refl
                         eq_refl eq_refl))).
Defined.

(** A clock that reads a second before the epoch gives a timestamp that an
    unsigned field refuses. *)
Example echo_refuses_negative_clock :
  EchoServer.run (-1 # 1)
    (EchoServer.echo (field := Proto3.uint64_timestamp)
       (new_EchoRequest "hi") WrappedContext)
  = Raised (ValueError "Value out of range: -1").
Proof. reflexivity. Qed.

(** C5, as stated, fails: the timestamp is what the clock reads, and a clock
    that reads half a second gives the timestamp 0. *)
Lemma echo_timestamp_zero_at_epoch :
  EchoServer.run (1 # 2)
    (EchoServer.echo (field := Proto3.uint64_timestamp)
       (new_EchoRequest "hi") WrappedContext)
  = Returned (new_EchoResponse "Echo: hi" 0)
  /\ timestamp (new_EchoResponse "Echo: hi" 0) = 0%Z.
Proof. split; reflexivity. Qed.

(** *** Readiness is never reset *)

Lemma handle_keeps_ready {X} rt (op : eff X) w x w' :
  handle rt op w = Some (x, w') -> is_clear op = false ->
  ready w = true -> ready w' = true.
Proof.
  destruct op; cbn; intros H Hc Hr; try discriminate Hc;
    rewrite ?Hr in H; injection H as _ <-; cbn; auto.
Qed.

Lemma clear_free_bind {A B} (c : coro A) (f : A -> coro B) :
  clear_free c -> (forall a, clear_free (f a)) -> clear_free (coro_bind c f).
Proof.
  intros Hc Hf. induction c as [a|e|X op k IH]; cbn in *; auto.
  destruct Hc as [Hop Hk]. split; [exact Hop|]. intros x. now apply IH.
Qed.

Lemma clear_free_of_result {A} (r : result A) : clear_free (of_result r).
Proof. now destruct r. Qed.

Lemma clear_free_on_start ctx : clear_free (on_start ctx).
Proof. unfold on_start. walk_coro. Qed.

Lemma clear_free_on_stop ctx : clear_free (on_stop ctx).
Proof. unfold on_stop. walk_coro. Qed.

Lemma step_clear_free {A} w (c : coro A) w' c' :
  step w c w' c' -> clear_free c ->
  clear_free c' /\ (ready w = true -> ready w' = true).
Proof.
  destruct c as [a|e|X op k]; cbn; try contradiction.
  intros (rt & x & Hh & ->) [Hop Hk]. split; [apply Hk|].
  now apply (handle_keeps_ready rt op w x w').
Qed.

Section Readiness.
Context {codec : Codec}.

Lemma clear_free_dispatch route_key payload ctx :
  clear_free (dispatch route_key payload ctx).
Proof. unfold dispatch. destruct (negb _); walk_coro. Qed.

Lemma workload_op_clear_free t : workload_op t -> task_clear_free t.
Proof.
  intros [ctx|ctx|route_key payload ctx]; cbn [task_clear_free].
  - apply clear_free_on_start.
  - apply clear_free_on_stop.
  - apply clear_free_dispatch.
Qed.

Lemma pool_step_clear_free cfg cfg' :
  pool_step cfg cfg' -> Forall task_clear_free (snd cfg) ->
  Forall task_clear_free (snd cfg')
  /\ (ready (fst cfg) = true -> ready (fst cfg') = true).
Proof.
  intros [w ts t Hop|w ts1 t ts2 w' t' Hstep]; cbn [fst snd]; intros Hall.
  - split; [|auto]. apply Forall_app. split; [exact Hall|].
    constructor; [now apply workload_op_clear_free|constructor].
  - apply Forall_app in Hall. destruct Hall as [H1 H2].
    apply Forall_cons in H2. destruct H2 as [Ht H2].
    destruct t as [A c]. cbn in Hstep. destruct Hstep as (c' & Hstep & ->).
    destruct (step_clear_free _ _ _ _ Hstep Ht) as [Hc' Hr].
    split; [|exact Hr]. apply Forall_app. split; [exact H1|].
    constructor; assumption.
Qed.

Lemma path_stays_ready c l :
  path c l -> Forall task_clear_free (snd c) -> ready (fst c) = true ->
  ready_flags l = replicate (length l) true.
Proof.
  induction 1 as [c|c c' l Hstep Hpath IH]; intros Hall Hr; [reflexivity|].
  destruct (pool_step_clear_free _ _ Hstep Hall) as [Hall' Hr'].
  change (ready_flags (c' :: l)) with (ready (fst c') :: ready_flags l).
  rewrite (Hr' Hr), (IH Hall' (Hr' Hr)). reflexivity.
Qed.

Lemma path_flags c l :
  path c l -> Forall task_clear_free (snd c) ->
  exists n m,
    ready_flags (c :: l) = replicate n false ++ replicate m true
    /\ (ready (fst c) = false -> 0 < n).
Proof.
  induction 1 as [c|c c' l Hstep Hpath IH]; intros Hall.
  - destruct (ready (fst c)) eqn:Hr.
    + exists 0, 1. cbn. rewrite Hr. split; [reflexivity|discriminate].
    + exists 1, 0. cbn. rewrite Hr. split; [reflexivity|lia].
  - destruct (ready (fst c)) eqn:Hr.
    + exists 0, (S (S (length l))). split; [|discriminate].
      pose proof (path_stays_ready c (c' :: l) (path_cons _ _ _ Hstep Hpath)
                    Hall Hr) as Hl.
      change (ready_flags (c :: c' :: l))
        with (ready (fst c) :: ready_flags (c' :: l)).
      rewrite Hr, Hl. reflexivity.
    + destruct (pool_step_clear_free _ _ Hstep Hall) as [Hall' _].
      destruct (IH Hall') as (n & m & Hf & _).
      exists (S n), m. split; [|lia].
      change (ready_flags (c :: c' :: l))
        with (ready (fst c) :: ready_flags (c' :: l)).
      rewrite Hr, Hf. reflexivity.
Qed.

Lemma solo_path_path {A} rt (c : coro A) w :
  path (w, [Task c]) (solo_path rt c w).
Proof.
  revert w. induction c as [a|e|X op k IH]; intros w; cbn;
    try apply path_nil.
  destruct (handle rt op w) as [[x w']|] eqn:Hh; [|apply path_nil].
  apply path_cons; [|apply IH].
  apply (pool_run w [] (Task (Await op k)) [] w' (Task (k x))).
  cbn. eexists. split; [|reflexivity]. cbn. eauto.
Qed.

(** C6: a workload starts not ready, and along every execution of its
    hooks and dispatches, however many of them the runtime starts, however
    their operations interleave and whatever the runtime answers, the
    readiness flags that the execution goes through are a run of [false]
    followed by a run of [true]: readiness is reached at most once and is
    never taken back.  None of the three operations clears the event. *)
Theorem readiness_monotonic (l : list config) :
  path (init, []) l ->
  ready init = false
  /\ (forall t, workload_op t -> task_clear_free t)
  /\ exists n m,
       ready_flags ((init, []) :: l)
       = replicate (S n) false ++ replicate m true.
Proof.
  intros Hpath. split; [reflexivity|]. split; [apply workload_op_clear_free|].
  destruct (path_flags _ _ Hpath) as (n & m & Hf & Hn); [constructor|].
  destruct n as [|n]; [specialize (Hn eq_refl); lia|].
  exists n, m. exact Hf.
Qed.

End Readiness.

Lemma readiness_monotonic_witness :
  path (codec := Proto3.codec) (init, []) startup_execution
  /\ ready_flags ((init, []) :: startup_execution)
     = [false; false; false; false; false; false; true]
  /\ (ready init = false
      /\ (forall t, workload_op (codec := Proto3.codec) t -> task_clear_free t)
      /\ exists n m,
           ready_flags ((init, []) :: startup_execution)
           = replicate (S n) false ++ replicate m true).
Proof.
  assert (Hpath : path (codec := Proto3.codec) (init, []) startup_execution).
  { apply path_cons.
    - apply (pool_spawn init [] (Task (on_start RawContext))). constructor.
    - apply solo_path_path. }
  split; [exact Hpath|]. split; [reflexivity|].
  exact (readiness_monotonic (codec := Proto3.codec) _ Hpath).
Defined.

(** *** The wire format on small payloads *)

Example proto3_request_hi :
  EchoRequest_SerializeToString (Codec := Proto3.codec) (new_EchoRequest "hi")
  = [Byte.x0a; Byte.x02; Byte.x68; Byte.x69].
Proof. reflexivity. Qed.

Example proto3_response_round_trip :
  EchoResponse_FromString (Codec := Proto3.codec)
    (EchoResponse_SerializeToString (Codec := Proto3.codec)
       (new_EchoResponse "Echo: hi" 1762214400))
  = Ok (new_EchoResponse "Echo: hi" 1762214400).
Proof. vm_compute. reflexivity. Qed.

(** A length that runs past the end of the payload, and a string that is
    not UTF-8, are refused; a field that the schema does not know is kept. *)
Example proto3_refused :
  EchoRequest_FromString (Codec := Proto3.codec)
    [Byte.x0a; Byte.x05; Byte.x68]
  = Raise (DecodeError "Error parsing message")
  /\ EchoRequest_FromString (Codec := Proto3.codec)
       [Byte.x0a; Byte.x01; Byte.xff]
     = Raise (DecodeError "Error parsing message")
  /\ EchoRequest_FromString (Codec := Proto3.codec)
       [Byte.x10; Byte.x05; Byte.x0a; Byte.x01; Byte.x41]
     = Ok {| message := "A"; request_unknown := [Byte.x10; Byte.x05] |}.
Proof. vm_compute. repeat split. Qed.

End EchoFacts.

(** ** Further properties of the formula-update script *)

Module BrewFormulaMore.
Import Py BrewFormula BrewFormulaSpec MoreSpec BrewFormulaFacts.

(** *** Strings *)

Lemma app_nil_r_str (s : string) : s +:+ EmptyString = s.
Proof.
  induction s as [|c s IH]; [reflexivity|].
  change (String c s +:+ EmptyString) with (String c (s +:+ EmptyString)).
  now rewrite IH.
Qed.

Lemma app_assoc_str (a b c : string) : (a +:+ b) +:+ c = a +:+ b +:+ c.
Proof.
  induction a as [|x a IH]; [reflexivity|].
  change ((String x a +:+ b) +:+ c) with (String x ((a +:+ b) +:+ c)).
  change (String x a +:+ b +:+ c) with (String x (a +:+ b +:+ c)).
  now rewrite IH.
Qed.

Lemma str_rev_onto_app (s acc : string) :
  str_rev_onto s acc = str_rev s +:+ acc.
Proof.
  unfold str_rev. revert acc. induction s as [|c s IH]; intros acc;
    [reflexivity|].
  cbn [str_rev_onto]. rewrite IH, (IH (String c EmptyString)).
  now rewrite app_assoc_str.
Qed.

Lemma str_rev_cons (c : ascii) (s : string) :
  str_rev (String c s) = str_rev s +:+ String c EmptyString.
Proof. unfold str_rev at 1. cbn [str_rev_onto]. apply str_rev_onto_app. Qed.

Lemma str_rev_app (a b : string) : str_rev (a +:+ b) = str_rev b +:+ str_rev a.
Proof.
  induction a as [|c a IH].
  - change (EmptyString +:+ b) with b. now rewrite app_nil_r_str.
  - change (String c a +:+ b) with (String c (a +:+ b)).
    now rewrite !str_rev_cons, IH, app_assoc_str.
Qed.

Lemma str_rev_involutive (s : string) : str_rev (str_rev s) = s.
Proof.
  induction s as [|c s IH]; [reflexivity|].
  now rewrite str_rev_cons, str_rev_app, IH.
Qed.

Lemma all_chars_app p (a b : string) :
  all_chars p (a +:+ b) = all_chars p a && all_chars p b.
Proof.
  induction a as [|c a IH]; [reflexivity|].
  change (String c a +:+ b) with (String c (a +:+ b)). cbn [all_chars].
  now rewrite IH, andb_assoc.
Qed.

Lemma all_chars_rev p (s : string) : all_chars p (str_rev s) = all_chars p s.
Proof.
  induction s as [|c s IH]; [reflexivity|].
  rewrite str_rev_cons, all_chars_app, IH. cbn [all_chars].
  rewrite andb_true_r. apply andb_comm.
Qed.

Lemma lstrip_all_space (ws s : string) :
  all_space ws = true -> lstrip (ws +:+ s) = lstrip s.
Proof.
  unfold all_space. induction ws as [|c ws IH]; intros H; [reflexivity|].
  change (String c ws +:+ s) with (String c (ws +:+ s)).
  cbn [all_chars] in H. apply andb_true_iff in H. destruct H as [Hc H].
  cbn [lstrip]. rewrite Hc. now apply IH.
Qed.

Lemma lstrip_keeps (x y : string) :
  nonempty (lstrip x) = true -> lstrip (x +:+ y) = lstrip x +:+ y.
Proof.
  induction x as [|c x IH]; intros H; [discriminate|].
  change (String c x +:+ y) with (String c (x +:+ y)).
  cbn [lstrip] in *. destruct (isspace c); [now apply IH|reflexivity].
Qed.

Lemma lstrip_gone (x y : string) :
  lstrip x = EmptyString -> lstrip (x +:+ y) = lstrip y.
Proof.
  induction x as [|c x IH]; intros H; [reflexivity|].
  change (String c x +:+ y) with (String c (x +:+ y)).
  cbn [lstrip] in *. destruct (isspace c); [now apply IH|discriminate].
Qed.

Lemma rstrip_from_left (s : string) : rstrip s = rstrip_left s.
Proof.
  unfold rstrip.
  assert (H : lstrip (str_rev s) = str_rev (rstrip_left s)).
  { induction s as [|c s IH]; [reflexivity|].
    rewrite str_rev_cons. cbn [rstrip_left].
    destruct (rstrip_left s) as [|d r'].
    - rewrite (lstrip_gone _ _ IH). cbn [lstrip].
      now destruct (isspace c).
    - rewrite lstrip_keeps by (rewrite IH, str_rev_cons;
        now destruct (str_rev r')).
      now rewrite IH, <- str_rev_cons. }
  now rewrite H, str_rev_involutive.
Qed.

Lemma rstrip_left_token (tok rest : string) :
  no_space tok = true ->
  rstrip_left (tok +:+ rest) = tok +:+ rstrip_left rest.
Proof.
  unfold no_space. induction tok as [|c tok IH]; intros H; [reflexivity|].
  change (String c tok +:+ rest) with (String c (tok +:+ rest)).
  cbn [all_chars] in H. apply andb_true_iff in H. destruct H as [Hc H].
  cbn [rstrip_left]. rewrite (IH H).
  change (String c tok +:+ rstrip_left rest)
    with (String c (tok +:+ rstrip_left rest)).
  destruct (tok +:+ rstrip_left rest); [|reflexivity].
  now destruct (isspace c).
Qed.

Lemma rstrip_left_space_ahead (s : string) :
  space_ahead s = true -> space_ahead (rstrip_left s) = true.
Proof.
  destruct s as [|c r]; [reflexivity|]. cbn [space_ahead rstrip_left].
  intros Hc. destruct (rstrip_left r); rewrite ?Hc; cbn; now rewrite ?Hc.
Qed.

Lemma rstrip_left_all_space (s : string) :
  all_space s = true -> rstrip_left s = EmptyString.
Proof.
  unfold all_space. induction s as [|c s IH]; intros H; [reflexivity|].
  cbn [all_chars] in H. apply andb_true_iff in H. destruct H as [Hc H].
  cbn [rstrip_left]. now rewrite (IH H), Hc.
Qed.

Lemma split_acc_token (cur tok rest : string) :
  no_space tok = true -> nonempty tok = true -> space_ahead rest = true ->
  exists more,
    split_acc cur (tok +:+ rest) = str_rev (str_rev tok +:+ cur) :: more.
Proof.
  unfold no_space. revert cur. induction tok as [|c tok IH];
    intros cur Hns Hne Hsp; [discriminate|].
  change (String c tok +:+ rest) with (String c (tok +:+ rest)).
  cbn [all_chars] in Hns. apply andb_true_iff in Hns.
  destruct Hns as [Hc Hns]. apply negb_true_iff in Hc.
  cbn [split_acc]. rewrite Hc. rewrite str_rev_cons, app_assoc_str.
  change (String c EmptyString +:+ cur) with (String c cur).
  destruct tok as [|d tok].
  - change (EmptyString +:+ rest) with rest.
    change (str_rev EmptyString +:+ String c cur) with (String c cur).
    destruct rest as [|s rest]; cbn [split_acc]; [eauto|].
    cbn [space_ahead] in Hsp. rewrite Hsp. eauto.
  - apply IH; [exact Hns|reflexivity|exact Hsp].
Qed.

(** *** [read_sha] *)

Lemma strip_token (ws tok rest : string) :
  all_space ws = true -> no_space tok = true -> nonempty tok = true ->
  space_ahead rest = true ->
  exists more, split (strip (ws +:+ tok +:+ rest)) = tok :: more.
Proof.
  intros Hws Hns Hne Hsp. unfold strip, split.
  rewrite (lstrip_all_space _ _ Hws).
  assert (Hl : lstrip (tok +:+ rest) = tok +:+ rest).
  { destruct tok as [|c tok]; [discriminate|].
    change (String c tok +:+ rest) with (String c (tok +:+ rest)).
    unfold no_space in Hns. cbn [all_chars] in Hns.
    apply andb_true_iff in Hns. destruct Hns as [Hc _].
    apply negb_true_iff in Hc. cbn [lstrip]. now rewrite Hc. }
  rewrite Hl, rstrip_from_left, (rstrip_left_token _ _ Hns).
  destruct (split_acc_token EmptyString tok (rstrip_left rest) Hns Hne
              (rstrip_left_space_ahead _ Hsp)) as [more Hm].
  rewrite Hm, app_nil_r_str, str_rev_involutive. eauto.
Qed.

Lemma strip_all_space (s : string) :
  all_space s = true -> split (strip s) = [].
Proof.
  intros H. unfold strip.
  assert (Hl : lstrip s = EmptyString).
  { rewrite <- (app_nil_r_str s), (lstrip_all_space _ _ H). reflexivity. }
  now rewrite Hl.
Qed.

(** X7: what [read_sha] gives by what is on disk, never writing: when the
    sha256 file of the asset is missing, [FileNotFoundError] with the path in
    its message; when the file is empty or holds whitespace only,
    [IndexError]; and when it holds, after optional whitespace, a word and
    then nothing or whitespace and anything more (the output of sha256sum:
    the digest, blanks, the file name), that word. *)
Theorem read_sha_by_content (dist_dir asset_name : string) (w : World) :
  (files w !! sha_path dist_dir asset_name = None ->
   read_sha dist_dir asset_name w
   = (Raise (FileNotFoundError
               ("Missing sha256 file: " +:+ sha_path dist_dir asset_name)), w))
  /\ (forall content,
        files w !! sha_path dist_dir asset_name = Some content ->
        all_space content = true ->
        read_sha dist_dir asset_name w
        = (Raise (IndexError "list index out of range"), w))
  /\ (forall ws digest rest,
        files w !! sha_path dist_dir asset_name
        = Some (ws +:+ digest +:+ rest) ->
        all_space ws = true -> no_space digest = true ->
        nonempty digest = true -> space_ahead rest = true ->
        read_sha dist_dir asset_name w = (Ok digest, w)).
Proof.
  unfold read_sha, sha_path, io_bind, path_exists, read_text. cbv beta zeta.
  split; [|split].
  - intros H. rewrite H.
    rewrite bool_decide_eq_false_2 by (intros [x Hx]; discriminate).
    reflexivity.
  - intros content H Hsp. rewrite H.
    rewrite bool_decide_eq_true_2 by eauto. cbv beta iota delta [negb].
    rewrite H. now rewrite (strip_all_space _ Hsp).
  - intros ws digest rest H Hws Hns Hne Hsp. rewrite H.
    rewrite bool_decide_eq_true_2 by eauto. cbv beta iota delta [negb].
    rewrite H.
    destruct (strip_token ws digest rest Hws Hns Hne Hsp) as [more Hm].
    now rewrite Hm.
Qed.

(** [--dist dist], [--dist dist/] and [--dist ./dist] name the same sha256
    file, and an empty [--dist] names the one of the working directory. *)
Example sha_path_of_dist :
  sha_path (Path "dist") "a.tar.gz" = "dist/a.tar.gz.sha256"
  /\ sha_path (Path "dist/") "a.tar.gz" = "dist/a.tar.gz.sha256"
  /\ sha_path (Path "./dist") "a.tar.gz" = "dist/a.tar.gz.sha256"
  /\ sha_path "dist/" "a.tar.gz" = "dist/a.tar.gz.sha256"
  /\ sha_path (Path "/srv//dist/") "a.tar.gz" = "/srv/dist/a.tar.gz.sha256"
  /\ sha_path (Path EmptyString) "a.tar.gz" = "a.tar.gz.sha256".
Proof. repeat split. Qed.

Lemma nonempty_rev (s : string) : nonempty (str_rev s) = nonempty s.
Proof.
  destruct s as [|c s]; [reflexivity|]. rewrite str_rev_cons.
  now destruct (str_rev s).
Qed.

Lemma split_acc_tokens (cur s : string) :
  no_space cur = true ->
  Forall (fun t => nonempty t = true /\ no_space t = true) (split_acc cur s).
Proof.
  unfold no_space. revert cur.
  induction s as [|c s IH]; intros cur Hcur; cbn [split_acc].
  - destruct cur as [|d cur]; constructor; [|constructor].
    split; [now rewrite nonempty_rev|now rewrite all_chars_rev].
  - destruct (isspace c) eqn:Hc.
    + destruct cur as [|d cur]; [now apply IH|].
      constructor; [|now apply IH].
      split; [now rewrite nonempty_rev|now rewrite all_chars_rev].
    + apply IH. cbn [all_chars]. now rewrite Hc.
Qed.

(** X11: whatever the sha256 file holds, a digest that [read_sha] returns
    is not empty and holds no whitespace, hence no line boundary either,
    and nothing was written to get it. *)
Theorem read_sha_digest_shape (dist_dir asset_name : string) (w w' : World)
    (digest : string) :
  read_sha dist_dir asset_name w = (Ok digest, w') ->
  w' = w /\ nonempty digest = true /\ no_space digest = true
  /\ is_Some (files w !! sha_path dist_dir asset_name).
Proof.
  unfold read_sha, sha_path, io_bind, path_exists, read_text. cbv beta zeta.
  destruct (files w !! joinpath dist_dir (asset_name +:+ ".sha256"))
    as [content|] eqn:Hf.
  - rewrite bool_decide_eq_true_2 by eauto. cbv beta iota delta [negb].
    rewrite Hf.
    pose proof (split_acc_tokens EmptyString (strip content) eq_refl) as Ht.
    fold (split (strip content)) in Ht.
    destruct (split (strip content)) as [|tok more]; [discriminate|].
    intros [= <- <-]. apply Forall_cons in Ht. destruct Ht as [[H1 H2] _].
    eauto.
  - rewrite bool_decide_eq_false_2 by (intros [x Hx]; discriminate).
    discriminate.
Qed.

Lemma read_sha_digest_shape_witness :
  read_sha "dist" "actr-nightly-aarch64-apple-darwin.tar.gz"
    (sample_world "nightly")
  = (Ok "1111", sample_world "nightly")
  /\ (sample_world "nightly" = sample_world "nightly"
      /\ nonempty "1111" = true /\ no_space "1111" = true
      /\ is_Some (files (sample_world "nightly")
                    !! sha_path "dist"
                         "actr-nightly-aarch64-apple-darwin.tar.gz")).
Proof.
  assert (H : read_sha "dist" "actr-nightly-aarch64-apple-darwin.tar.gz"
                (sample_world "nightly")
              = (Ok "1111", sample_world "nightly"))
    by (vm_compute; reflexivity).
  split; [exact H|].
  exact (read_sha_digest_shape _ _ _ _ _ H).
Defined.

(** *** Line boundaries *)

Lemma splitlines_acc_no_linebreak (cur : string) (after_cr : bool) (s : string) :
  no_linebreak cur = true ->
  Forall (fun l => no_linebreak l = true) (splitlines_acc cur after_cr s).
Proof.
  unfold no_linebreak. revert cur after_cr.
  induction s as [|c s IH]; intros cur after_cr Hcur; cbn [splitlines_acc].
  - destruct cur; constructor; [now rewrite all_chars_rev|constructor].
  - destruct (after_cr && Ascii.eqb c "010"); [now apply IH|].
    destruct (islinebreak c) eqn:Hc.
    + constructor; [now rewrite all_chars_rev|now apply IH].
    + apply IH. cbn [all_chars]. now rewrite Hc.
Qed.

Lemma splitlines_no_linebreak (s : string) :
  Forall (fun l => no_linebreak l = true) (splitlines s).
Proof. now apply splitlines_acc_no_linebreak. Qed.

Lemma leading_space_all_chars p (s : string) :
  all_chars p s = true -> all_chars p (leading_space s) = true.
Proof.
  induction s as [|c s IH]; intros H; [reflexivity|].
  cbn [all_chars] in H. apply andb_true_iff in H. destruct H as [Hc H].
  cbn [leading_space]. destruct (isspace c); [|reflexivity].
  cbn [all_chars]. now rewrite Hc, IH.
Qed.

Lemma new_line_no_linebreak (kw value line : string) :
  no_linebreak kw = true -> no_linebreak value = true ->
  no_linebreak line = true -> no_linebreak (new_line kw value line) = true.
Proof.
  unfold no_linebreak, new_line. intros Hk Hv Hl.
  rewrite !all_chars_app, Hk, Hv, (leading_space_all_chars _ _ Hl).
  reflexivity.
Qed.

(** What a call that returns has done to the lines. *)
Lemma replace_after_marker_lines (text marker url sha out : string) :
  replace_after_marker text marker url sha = Ok out ->
  exists j k line_j line_k,
    splitlines text !! j = Some line_j
    /\ splitlines text !! k = Some line_k
    /\ out = join nl (<[k := new_line "sha256" sha line_k]>
                        (<[j := new_line "url" url line_j]> (splitlines text))).
Proof.
  unfold replace_after_marker. set (lines := splitlines text). intros H.
  destruct (find_from (str_in marker) lines 0) as [i|] eqn:Hi; [|discriminate].
  rewrite Nat.add_1_r in H.
  destruct (find_from (is_key_line "url") lines (S i)) as [j|] eqn:Hj;
    [|discriminate].
  apply find_from_first in Hj.
  destruct Hj as (_ & (line_j & Hlj & Hkj) & _).
  rewrite (rewrite_line_key _ _ _ _ _ Hlj Hkj) in H. cbn [bind] in H.
  rewrite Nat.add_1_r in H.
  destruct (find_from (is_key_line "sha256") _ (S j)) as [k|] eqn:Hk;
    [|discriminate].
  apply find_from_first in Hk.
  destruct Hk as (Hjk & (line_k & Hlk & Hkk) & _).
  rewrite (rewrite_line_key _ _ _ _ _ Hlk Hkk) in H. cbn [bind] in H.
  injection H as <-. rewrite list_lookup_insert_ne in Hlk by lia.
  exists j, k, line_j, line_k. auto.
Qed.

(** X8: [replace_after_marker] rewrites the line boundaries of the text:
    with a url and a digest that hold no line boundary, the returned text is
    as many lines as the input had, none of which holds a line boundary,
    joined by single line feeds.  So carriage returns and the other
    boundaries that [splitlines] knows become line feeds, and the boundary
    at the end of the last line is dropped. *)
Theorem replace_after_marker_line_feeds (text marker url sha out : string) :
  replace_after_marker text marker url sha = Ok out ->
  no_linebreak url = true -> no_linebreak sha = true ->
  exists lines',
    out = join nl lines'
    /\ length lines' = length (splitlines text)
    /\ Forall (fun l => no_linebreak l = true) lines'.
Proof.
  intros H Hu Hs.
  destruct (replace_after_marker_lines _ _ _ _ _ H)
    as (j & k & line_j & line_k & Hlj & Hlk & ->).
  pose proof (splitlines_no_linebreak text) as Hall.
  eexists. split; [reflexivity|]. split; [now rewrite !length_insert|].
  apply Forall_insert; [apply Forall_insert; [exact Hall|]|].
  - apply new_line_no_linebreak; [reflexivity|exact Hu|].
    exact (Forall_lookup_1 _ _ _ _ Hall Hlj).
  - apply new_line_no_linebreak; [reflexivity|exact Hs|].
    exact (Forall_lookup_1 _ _ _ _ Hall Hlk).
Qed.

Lemma replace_after_marker_line_feeds_witness :
  replace_after_marker
    ("# TARGET: a" +:+ String "013" nl +:+ "  url x" +:+ String "013" nl
       +:+ "  sha256 y" +:+ String "013" nl)
    "# TARGET: a" "U" "S"
  = Ok ("# TARGET: a" +:+ nl +:+ "  url " +:+ dquote +:+ "U" +:+ dquote +:+ nl
        +:+ "  sha256 " +:+ dquote +:+ "S" +:+ dquote)
  /\ no_linebreak "U" = true /\ no_linebreak "S" = true
  /\ exists lines',
       "# TARGET: a" +:+ nl +:+ "  url " +:+ dquote +:+ "U" +:+ dquote +:+ nl
         +:+ "  sha256 " +:+ dquote +:+ "S" +:+ dquote
       = join nl lines'
       /\ length lines'
          = length (splitlines
                      ("# TARGET: a" +:+ String "013" nl +:+ "  url x"
                         +:+ String "013" nl +:+ "  sha256 y"
                         +:+ String "013" nl))
       /\ Forall (fun l => no_linebreak l = true) lines'.
Proof.
  split; [reflexivity|]. split; [reflexivity|]. split; [reflexivity|].
  exact (replace_after_marker_line_feeds
           ("# TARGET: a" +:+ String "013" nl +:+ "  url x"
              +:+ String "013" nl +:+ "  sha256 y" +:+ String "013" nl)
           "# TARGET: a" "U" "S" _ eq_refl eq_refl eq_refl).
Defined.

(** *** The replacement template *)

Lemma parse_template_tail (v : string) :
  no_backslash v = true ->
  parse_template 3 (v +:+ String backslash "3")
  = Some (literals v ++ [GroupRef 3]).
Proof.
  unfold no_backslash. induction v as [|c v IH]; intros H; [reflexivity|].
  change (String c v +:+ String backslash "3")
    with (String c (v +:+ String backslash "3")).
  cbn [all_chars] in H. apply andb_true_iff in H. destruct H as [Hc H].
  cbn [parse_template]. rewrite Hc, (IH H). reflexivity.
Qed.

Lemma expand_literals (v : string) (t : list template_item) g :
  expand_template (literals v ++ t) g = v +:+ expand_template t g.
Proof.
  induction v as [|c v IH]; [reflexivity|].
  cbn [literals app expand_template]. now rewrite IH.
Qed.

Lemma parse_group_one (rest : string) :
  no_digit_ahead rest = true ->
  parse_template 3 (String backslash (String "1" rest))
  = cons (GroupRef 1) <$> parse_template 3 rest.
Proof.
  intros H. cbn [parse_template].
  cbn [Ascii.eqb Bool.eqb negb backslash].
  change (is_digit "1") with true. cbv iota.
  change (digit_value "1" <=? 3) with true. cbv iota.
  destruct rest as [|c r]; [reflexivity|].
  cbn [no_digit_ahead] in H. apply negb_true_iff in H. now rewrite H.
Qed.

(** X9: for a version that holds no backslash and does not start with a
    digit, the replacement template is the first group, the characters of
    the version as they are, and the third group: [re.subn] does not raise,
    and it puts in the place of every match the text of the match up to
    and with its opening quote, the version, and the closing quote. *)
Theorem version_template_regular (version : string) :
  no_backslash version = true -> no_digit_ahead version = true ->
  exists t,
    parse_template 3 (version_template version) = Some t
    /\ (forall g, expand_template t g = g 1 +:+ version +:+ g 3)
    /\ forall text,
         re_subn_version (version_template version) text
         = Ok (subn_scan t true 0 text).
Proof.
  intros Hb Hd. exists (GroupRef 1 :: literals version ++ [GroupRef 3]).
  assert (Hp : parse_template 3 (version_template version)
               = Some (GroupRef 1 :: literals version ++ [GroupRef 3])).
  { unfold version_template.
    change (String backslash "1" +:+ version +:+ String backslash "3")
      with (String backslash
              (String "1" (version +:+ String backslash "3"))).
    rewrite parse_group_one, (parse_template_tail version Hb); [reflexivity|].
    destruct version as [|c v]; [reflexivity|exact Hd]. }
  split; [exact Hp|]. split.
  - intros g. cbn [expand_template]. rewrite expand_literals.
    cbn [expand_template]. now rewrite app_nil_r_str.
  - intros text. unfold re_subn_version. now rewrite Hp.
Qed.

Lemma version_template_regular_witness :
  no_backslash "nightly" = true /\ no_digit_ahead "nightly" = true
  /\ exists t,
       parse_template 3 (version_template "nightly") = Some t
       /\ (forall g, expand_template t g = g 1 +:+ "nightly" +:+ g 3)
       /\ forall text,
            re_subn_version (version_template "nightly") text
            = Ok (subn_scan t true 0 text).
Proof.
  split; [reflexivity|]. split; [reflexivity|].
  exact (version_template_regular "nightly" eq_refl eq_refl).
Defined.

Lemma parse_group_one_digit (d : ascii) (rest : string) :
  is_digit d = true ->
  is_octdigit d && match rest with
                   | EmptyString => false
                   | String c _ => is_octdigit c
                   end = false ->
  forall r1, r1 = String d rest ->
  parse_template 3 (String backslash (String "1" r1)) = None.
Proof.
  intros Hd Ho r1 Hr. cbn [parse_template].
  cbn [Ascii.eqb Bool.eqb negb backslash].
  change (is_digit "1") with true. cbv iota. subst r1. cbv iota.
  rewrite Hd.
  assert (Hg : (digit_value "1" * 10 + digit_value d <=? 3) = false).
  { apply Nat.leb_gt. change (digit_value "1") with 1. lia. }
  rewrite Hg. change (is_octdigit "1") with true. cbn [andb].
  destruct rest as [|c rest]; [reflexivity|]. now rewrite Ho.
Qed.

Lemma parse_template_leading_digit (d : ascii) (tail : string) :
  is_digit d = true -> octal_pair d tail = false ->
  parse_template 3 (version_template (String d tail)) = None.
Proof.
  intros Hd Ho. unfold version_template.
  change (String backslash "1" +:+ String d tail +:+ String backslash "3")
    with (String backslash
            (String "1" (String d (tail +:+ String backslash "3")))).
  apply (parse_group_one_digit d (tail +:+ String backslash "3") Hd);
    [|reflexivity].
  unfold octal_pair in Ho. destruct tail as [|c tail].
  - change (EmptyString +:+ String backslash "3") with (String backslash "3").
    change (is_octdigit backslash) with false. apply andb_false_r.
  - exact Ho.
Qed.

(** X10: a version that starts with a decimal digit makes [main] fail,
    unless its first two characters are octal digits: the backslash and
    the 1 of the template take in the digit as part of a group number,
    [re.subn] raises before it searches, and [main] raises and writes
    nothing, whatever the formula holds.  Every version of the form 1.2.3
    is such a version. *)
Theorem main_refuses_leading_digit (args : Args) (w : World) (d : ascii)
    (tail : string) :
  version_of (arg_version args) = String d tail ->
  is_digit d = true -> octal_pair d tail = false ->
  (forall text,
     re_subn_version (version_template (String d tail)) text
     = Raise (ReError "invalid replacement template"))
  /\ exists e, main args w = (Raise e, w).
Proof.
  intros Hv Hd Ho.
  assert (Hs : forall text,
             re_subn_version (version_template (String d tail)) text
             = Raise (ReError "invalid replacement template")).
  { intros text. unfold re_subn_version.
    now rewrite (parse_template_leading_digit d tail Hd Ho). }
  split; [exact Hs|].
  destruct (main_before_write args w)
    as [[written (t0 & s1 & s2 & t1 & c & t2 & _ & _ & _ & Hsub & _)]
       |(e & He & _)]; [|eauto].
  rewrite Hv, Hs in Hsub. discriminate Hsub.
Qed.

Lemma main_refuses_leading_digit_witness :
  version_of (arg_version (sample_args "v1.2.3")) = "1.2.3"
  /\ is_digit "1" = true /\ octal_pair "1" ".2.3" = false
  /\ ((forall text,
         re_subn_version (version_template "1.2.3") text
         = Raise (ReError "invalid replacement template"))
      /\ exists e,
           main (sample_args "v1.2.3") (sample_world "1.2.3")
           = (Raise e, sample_world "1.2.3")).
Proof.
  split; [reflexivity|]. split; [reflexivity|]. split; [reflexivity|].
  exact (main_refuses_leading_digit (sample_args "v1.2.3")
           (sample_world "1.2.3") "1"%char ".2.3" eq_refl eq_refl eq_refl).
Defined.

(** *** How [replace_after_marker] fails *)

Lemma for_range_find_none p (lines : list string) n start :
  for_range_find p lines start n = None ->
  length lines <= start + n ->
  forall j l, start <= j -> lines !! j = Some l -> p l = false.
Proof.
  revert start. induction n as [|n IH]; intros start H Hlen j l Hj Hl.
  - apply lookup_lt_Some in Hl. lia.
  - cbn [for_range_find] in H.
    destruct (lines !! start) as [line|] eqn:Hs.
    + destruct (p line) eqn:Hp; [discriminate|].
      destruct (decide (j = start)) as [->|Hne]; [congruence|].
      apply (IH (S start) H ltac:(lia) j l); [lia|exact Hl].
    + apply lookup_ge_None in Hs. apply lookup_lt_Some in Hl. lia.
Qed.

Lemma find_from_none p (lines : list string) start :
  find_from p lines start = None ->
  forall j l, start <= j -> lines !! j = Some l -> p l = false.
Proof. intros H. apply (for_range_find_none _ _ _ _ H). lia. Qed.

(** X6: [replace_after_marker] raises nothing but [ValueError], and which
    one is decided by the first line that holds the marker alone: no line
    holds the marker; or no line after that first one starts with url; or
    no line after the first such url line starts with sha256.  A later
    line with the marker, with a url line and a sha256 line below it, does
    not make up for it. *)
Theorem replace_after_marker_errors (text marker url sha : string) (e : exn) :
  replace_after_marker text marker url sha = Raise e ->
  let lines := splitlines text in
  (e = ValueError ("Marker not found: " +:+ marker)
   /\ forall j l, lines !! j = Some l -> str_in marker l = false)
  \/ (exists i,
        first_index_from (str_in marker) lines 0 i
        /\ e = ValueError ("url line not found after marker: " +:+ marker)
        /\ forall j l, i < j -> lines !! j = Some l ->
                       is_key_line "url" l = false)
  \/ (exists i j,
        first_index_from (str_in marker) lines 0 i
        /\ first_index_from (is_key_line "url") lines (S i) j
        /\ e = ValueError ("sha256 line not found after marker: " +:+ marker)
        /\ forall k l, j < k -> lines !! k = Some l ->
                       is_key_line "sha256" l = false).
Proof.
  unfold replace_after_marker. set (lines := splitlines text). intros H.
  cbv zeta.
  destruct (find_from (str_in marker) lines 0) as [i|] eqn:Hi.
  2:{ left. injection H as <-. split; [reflexivity|].
      intros j l Hl. apply (find_from_none _ _ _ Hi j l); [lia|exact Hl]. }
  rewrite Nat.add_1_r in H. apply find_from_first in Hi.
  destruct (find_from (is_key_line "url") lines (S i)) as [j|] eqn:Hj.
  2:{ right. left. exists i. injection H as <-.
      split; [exact Hi|]. split; [reflexivity|].
      intros j l Hlt Hl. apply (find_from_none _ _ _ Hj j l); [lia|exact Hl]. }
  apply find_from_first in Hj.
  pose proof Hj as (_ & (line_j & Hlj & Hkj) & _).
  rewrite (rewrite_line_key _ _ _ _ _ Hlj Hkj) in H.
  cbn [bind] in H. rewrite Nat.add_1_r in H.
  destruct (find_from (is_key_line "sha256") _ (S j)) as [k|] eqn:Hk.
  - apply find_from_first in Hk.
    pose proof Hk as (_ & (line_k & Hlk & Hkk) & _).
    rewrite (rewrite_line_key _ _ _ _ _ Hlk Hkk) in H.
    discriminate H.
  - right. right. exists i, j. injection H as <-.
    split; [exact Hi|]. split; [exact Hj|]. split; [reflexivity|].
    intros k l Hlt Hl.
    apply (find_from_none _ _ _ Hk k l); [lia|].
    rewrite list_lookup_insert_ne by lia. exact Hl.
Qed.

Lemma replace_after_marker_errors_witness :
  replace_after_marker ("# TARGET: a" +:+ nl +:+ "url x" +:+ nl)
    "# TARGET: a" "U" "S"
  = Raise (ValueError "sha256 line not found after marker: # TARGET: a")
  /\ ((ValueError "sha256 line not found after marker: # TARGET: a"
       = ValueError ("Marker not found: " +:+ "# TARGET: a")
       /\ forall j l,
            splitlines ("# TARGET: a" +:+ nl +:+ "url x" +:+ nl) !! j = Some l ->
            str_in "# TARGET: a" l = false)
      \/ (exists i,
            first_index_from (str_in "# TARGET: a")
              (splitlines ("# TARGET: a" +:+ nl +:+ "url x" +:+ nl)) 0 i
            /\ ValueError "sha256 line not found after marker: # TARGET: a"
               = ValueError ("url line not found after marker: "
                             +:+ "# TARGET: a")
            /\ forall j l, i < j ->
                 splitlines ("# TARGET: a" +:+ nl +:+ "url x" +:+ nl) !! j
                 = Some l ->
                 is_key_line "url" l = false)
      \/ (exists i j,
            first_index_from (str_in "# TARGET: a")
              (splitlines ("# TARGET: a" +:+ nl +:+ "url x" +:+ nl)) 0 i
            /\ first_index_from (is_key_line "url")
                 (splitlines ("# TARGET: a" +:+ nl +:+ "url x" +:+ nl)) (S i) j
            /\ ValueError "sha256 line not found after marker: # TARGET: a"
               = ValueError ("sha256 line not found after marker: "
                             +:+ "# TARGET: a")
            /\ forall k l, j < k ->
                 splitlines ("# TARGET: a" +:+ nl +:+ "url x" +:+ nl) !! k
                 = Some l ->
                 is_key_line "sha256" l = false)).
Proof.
  split; [reflexivity|].
  exact (replace_after_marker_errors
           ("# TARGET: a" +:+ nl +:+ "url x" +:+ nl) "# TARGET: a" "U" "S"
           (ValueError "sha256 line not found after marker: # TARGET: a")
           eq_refl).
Defined.

End BrewFormulaMore.

(** ** Further properties of the echo client *)

Module EchoMore.
Import Py Pb2 Actr EchoClient EchoSpec EchoApp MoreSpec.

Section Client.
Context {codec : Codec}.

(** X1: a dispatch never changes the workload, whatever the route key, the
    payload and the answers of the runtime, and it sends at most one call:
    there is no retry.  [on_stop] does not change the workload either. *)
Theorem dispatch_reads_only (rt : Runtime) (w : EchoClientWorkload)
    (route_key : string) (payload : bytes) (ctx : ContextArg) :
  final (run rt (dispatch route_key payload ctx) w) = w
  /\ length (List.filter is_call
               (trace (run rt (dispatch route_key payload ctx) w))) <= 1
  /\ final (run rt (on_stop ctx) w) = w.
Proof.
  split; [|split; [|reflexivity]].
  - unfold dispatch, run. destruct (negb _); [reflexivity|]. cbn.
    destruct (EchoRequest_FromString payload) as [request|e]; cbn;
      [|reflexivity].
    destruct (ready w); cbn; [|reflexivity].
    destruct (server_id w) as [id|]; cbn; [|reflexivity].
    destruct (rt_call rt _ _ _) as [response_bytes|e]; cbn; [|reflexivity].
    now destruct (EchoResponse_FromString response_bytes).
  - unfold dispatch, run. destruct (negb _); [cbn; lia|]. cbn.
    destruct (EchoRequest_FromString payload) as [request|e]; cbn; [|lia].
    destruct (ready w); cbn; [|lia].
    destruct (server_id w) as [id|]; cbn; [|lia].
    destruct (rt_call rt _ _ _) as [response_bytes|e]; cbn; [|lia].
    destruct (EchoResponse_FromString response_bytes); cbn; lia.
Qed.

(** X2: a dispatch of the echo route that comes in before readiness is
    signaled neither answers nor fails: it waits at the readiness event,
    having looked at nothing of the workload and called nobody, and in the
    pool it has no step to take as long as the event is not set. *)
Theorem dispatch_waits_for_readiness (rt : Runtime) (w : EchoClientWorkload)
    (payload : bytes) (ctx : ContextArg) (request : EchoRequest) :
  ready w = false ->
  EchoRequest_FromString payload = Ok request ->
  run rt (dispatch "echo.EchoService.Echo" payload ctx) w
  = {| final := w; trace := [Obs ReadyWait]; result_of := Suspended |}
  /\ forall w' c',
       ~ step w (dispatch "echo.EchoService.Echo" payload ctx) w' c'.
Proof.
  intros Hr Hp. split.
  - unfold dispatch, run. cbn. rewrite Hp. cbn. now rewrite Hr.
  - intros w' c'. unfold dispatch. cbn. rewrite Hp. cbn.
    intros (rt' & x & Hh & _). now rewrite Hr in Hh.
Qed.

(** X3: on a ready workload that knows its server, a dispatch of the echo
    route ends as its one call ends: the exception of a failed call is the
    exception of the dispatch, unchanged; a response that does not parse
    makes the dispatch raise what the parser raised; a response that parses
    is returned, serialized again. *)
Theorem dispatch_follows_call (rt : Runtime) (w : EchoClientWorkload)
    (payload : bytes) (ctx : ContextArg) (request : EchoRequest)
    (id : ActrId) :
  ready w = true -> server_id w = Some id ->
  EchoRequest_FromString payload = Ok request ->
  result_of (run rt (dispatch "echo.EchoService.Echo" payload ctx) w)
  = match rt_call rt (Dest_actor id) "echo.EchoService.Echo" request with
    | Raise e => Raised e
    | Ok response_bytes =>
        match EchoResponse_FromString response_bytes with
        | Raise e => Raised e
        | Ok response => Returned (EchoResponse_SerializeToString response)
        end
    end.
Proof.
  intros Hr Hs Hp. unfold dispatch, run. cbn. rewrite Hp. cbn.
  rewrite Hr, Hs. cbn.
  destruct (rt_call rt _ _ _) as [response_bytes|e]; cbn; [|reflexivity].
  now destruct (EchoResponse_FromString response_bytes).
Qed.

(** X12: the identity that the discovery of [on_start] came back with is
    where the calls go: after [on_start], a dispatch of the echo route whose
    payload parses sends its call to that identity, with the request that
    the payload holds, whatever the runtime is. *)
Theorem on_start_then_dispatch_calls_discovered (rt : Runtime)
    (ctx ctx' : ContextArg) (id : ActrId) (payload : bytes)
    (request : EchoRequest) :
  rt_discover rt (server_type init) = Ok id ->
  EchoRequest_FromString payload = Ok request ->
  trace (run rt (dispatch "echo.EchoService.Echo" payload ctx')
           (final (run rt (on_start ctx) init)))
  = [Obs ReadyWait; Obs GetServerId;
     Obs (Call (Dest_actor id) "echo.EchoService.Echo" request)].
Proof.
  intros Hd Hp. rewrite (EchoFacts.run_on_start_found rt ctx init id Hd).
  cbn [final]. unfold dispatch, run. cbn. rewrite Hp. cbn.
  destruct (rt_call rt _ _ _) as [response_bytes|e]; cbn; [|reflexivity].
  now destruct (EchoResponse_FromString response_bytes).
Qed.

End Client.

Lemma dispatch_waits_for_readiness_witness :
  ready init = false
  /\ EchoRequest_FromString (Codec := Proto3.codec)
       [Byte.x0a; Byte.x02; Byte.x68; Byte.x69]
     = Ok (new_EchoRequest "hi")
  /\ (run no_server_runtime
        (dispatch (codec := Proto3.codec) "echo.EchoService.Echo"
           [Byte.x0a; Byte.x02; Byte.x68; Byte.x69] RawContext) init
      = {| final := init; trace := [Obs ReadyWait]; result_of := Suspended |}
      /\ forall w' c',
           ~ step init
               (dispatch (codec := Proto3.codec) "echo.EchoService.Echo"
                  [Byte.x0a; Byte.x02; Byte.x68; Byte.x69] RawContext)
               w' c').
Proof.
  split; [reflexivity|]. split; [reflexivity|].
  exact (dispatch_waits_for_readiness (codec := Proto3.codec)
           no_server_runtime init [Byte.x0a; Byte.x02; Byte.x68; Byte.x69]
           RawContext (new_EchoRequest "hi") eq_refl eq_refl).
Defined.

Lemma dispatch_follows_call_witness :
  result_of
    (run failing_server_runtime
       (dispatch (codec := Proto3.codec) "echo.EchoService.Echo"
          [Byte.x0a; Byte.x02; Byte.x68; Byte.x69] RawContext)
       (final (run failing_server_runtime (on_start RawContext) init)))
  = Raised (ActrRuntimeError "unreachable destination").
Proof.
  exact (dispatch_follows_call (codec := Proto3.codec) failing_server_runtime
           (final (run failing_server_runtime (on_start RawContext) init))
           [Byte.x0a; Byte.x02; Byte.x68; Byte.x69] RawContext
           (new_EchoRequest "hi") 7%N eq_refl eq_refl eq_refl).
Defined.

Lemma on_start_then_dispatch_calls_discovered_witness :
  trace (run failing_server_runtime
           (dispatch (codec := Proto3.codec) "echo.EchoService.Echo"
              [Byte.x0a; Byte.x02; Byte.x68; Byte.x69] RawContext)
           (final (run failing_server_runtime (on_start RawContext) init)))
  = [Obs ReadyWait; Obs GetServerId;
     Obs (Call (Dest_actor 7%N) "echo.EchoService.Echo" (new_EchoRequest "hi"))].
Proof.
  exact (on_start_then_dispatch_calls_discovered (codec := Proto3.codec)
           failing_server_runtime RawContext RawContext 7%N
           [Byte.x0a; Byte.x02; Byte.x68; Byte.x69] (new_EchoRequest "hi")
           eq_refl eq_refl).
Defined.

(** *** The console loop *)

Lemma encode_utf8_cases (line : PyStr.str) :
  PyStr.encode_utf8 line
  = if refused line then None else Some (utf8 line).
Proof.
  induction line as [|c r IH]; [reflexivity|].
  cbn [PyStr.encode_utf8 refused existsb utf8].
  destruct (PyStr.is_surrogate c); [reflexivity|]. cbn [orb].
  fold (refused r). rewrite IH. now destruct (refused r).
Qed.

Lemma EchoRequest_of_str_cases (line : PyStr.str) :
  EchoRequest_of_str line
  = if refused line then None else Some (new_EchoRequest (utf8 line)).
Proof.
  unfold EchoRequest_of_str. rewrite encode_utf8_cases.
  now destruct (refused line).
Qed.

Section Console.
Context {codec : Codec}.
Variable ref_call : nat -> string -> EchoRequest -> result bytes.

Lemma app_loop_calls n inputs :
  List.filter is_called (fst (app_loop ref_call n inputs))
  = map (fun m => Called "echo.EchoService.Echo" (new_EchoRequest m))
      (sent_messages inputs).
Proof.
  revert n. induction inputs as [|line rest IH]; intros n; [reflexivity|].
  unfold sent_messages, sent_lines, stops in *.
  cbn [app_loop map before_first].
  destruct (is_quit (PyStr.strip line)) eqn:Hq; [reflexivity|]. cbn [orb].
  destruct (PyStr.strip line) as [|c r] eqn:Hl.
  - specialize (IH n). destruct (app_loop ref_call n rest) as [evs e].
    cbn [fst] in IH. cbn. exact IH.
  - rewrite EchoRequest_of_str_cases.
    destruct (refused (c :: r)) eqn:Hs; [reflexivity|].
    specialize (IH (S n)). destruct (app_loop ref_call (S n) rest) as [evs e].
    cbn [fst] in IH.
    destruct (bind _ _) as [response|err];
      cbn [fst List.filter is_called nonblank map]; now rewrite IH.
Qed.

Lemma app_loop_end n inputs :
  snd (app_loop ref_call n inputs) = session_end inputs.
Proof.
  revert n. induction inputs as [|line rest IH]; intros n; [reflexivity|].
  unfold session_end, stops in *. cbn [app_loop map List.find].
  destruct (is_quit (PyStr.strip line)) eqn:Hq;
    [cbn [orb]; now rewrite Hq|]. cbn [orb].
  destruct (PyStr.strip line) as [|c r] eqn:Hl.
  - specialize (IH n). destruct (app_loop ref_call n rest) as [evs e].
    exact IH.
  - rewrite EchoRequest_of_str_cases.
    destruct (refused (c :: r)) eqn:Hs; [now rewrite Hq|].
    specialize (IH (S n)). destruct (app_loop ref_call (S n) rest) as [evs e].
    now destruct (bind _ _).
Qed.

Lemma app_loop_prints n inputs :
  length (List.filter is_printed (fst (app_loop ref_call n inputs)))
  = length (sent_messages inputs).
Proof.
  revert n. induction inputs as [|line rest IH]; intros n; [reflexivity|].
  unfold sent_messages, sent_lines, stops in *.
  cbn [app_loop map before_first].
  destruct (is_quit (PyStr.strip line)) eqn:Hq; [reflexivity|]. cbn [orb].
  destruct (PyStr.strip line) as [|c r] eqn:Hl.
  - specialize (IH n). destruct (app_loop ref_call n rest) as [evs e].
    cbn [fst] in IH. cbn. exact IH.
  - rewrite EchoRequest_of_str_cases.
    destruct (refused (c :: r)) eqn:Hs; [reflexivity|].
    specialize (IH (S n)). destruct (app_loop ref_call (S n) rest) as [evs e].
    cbn [fst] in IH.
    destruct (bind _ _) as [response|err];
      cbn [fst List.filter is_printed nonblank map length]; now rewrite IH.
Qed.

(** X4: the console loop sends one call for every line that is not blank
    and is typed before the first line at which the loop stops, which is
    the first quit or exit or line that has a surrogate; the calls are in
    the order typed, each on the echo route and with the UTF-8 bytes of the
    line, without the whitespace around it, as message.  Blank lines send
    nothing, and so does what comes after the line at which the loop
    stops.  Whitespace is what [str.strip] takes it to be, on code
    points. *)
Theorem run_app_calls (inputs : list PyStr.str) :
  List.filter is_called (fst (_run_app ref_call inputs))
  = map (fun m => Called "echo.EchoService.Echo" (new_EchoRequest m))
      (sent_messages inputs).
Proof.
  unfold _run_app. pose proof (app_loop_calls 0 inputs) as H.
  destruct (app_loop ref_call 0 inputs) as [evs e]. exact H.
Qed.

(** X5: no failure of a call ends the console loop: whatever the calls come
    back with, values, exceptions of the class [Exception] or bytes that do
    not parse, the loop
    prints one line for each message sent, after its two lines of heading,
    and goes on.  It returns at the first line that is quit or exit once
    the whitespace around it is dropped; a line with a surrogate before
    that ends it with the exception of the request constructor; otherwise
    it ends with the input. *)
Theorem run_app_survives_calls (inputs : list PyStr.str) :
  snd (_run_app ref_call inputs) = session_end inputs
  /\ length (List.filter is_printed (fst (_run_app ref_call inputs)))
     = 2 + length (sent_messages inputs).
Proof.
  unfold _run_app. pose proof (app_loop_end 0 inputs) as He.
  pose proof (app_loop_prints 0 inputs) as Hp.
  destruct (app_loop ref_call 0 inputs) as [evs e]. cbn in *.
  split; [exact He|now rewrite Hp].
Qed.

End Console.

(** A line of five code points, the last one U+00E0, followed by a no-break
    space is sent as the six bytes of its five code points; a line that is
    quit followed by a no-break space ends the session. *)
Example run_app_strips_code_points :
  let nbsp := PyStr.CodePoint 0xa0 eq_refl in
  let voila := PyStr.of_string "voil" ++ [PyStr.CodePoint 0xe0 eq_refl] in
  let quit := PyStr.of_string "quit" in
  _run_app (codec := Proto3.codec)
    (fun _ _ _ => Raise (ActrRuntimeError "unreachable destination"))
    [voila ++ [nbsp]; quit ++ [nbsp]; voila]
  = ([Logged INFO "Echo client app started";
      Printed "===== Echo Client App =====";
      Printed "Type messages to send to server (type 'quit' to exit):";
      Prompted;
      Called "echo.EchoService.Echo"
        (new_EchoRequest
           (String "v" (String "o" (String "i" (String "l"
              (String "195" (String "160" EmptyString)))))));
      Logged ERROR "app call failed: %s";
      Printed "[Error] unreachable destination";
      Prompted],
     AppReturned).
Proof. vm_compute. reflexivity. Qed.

End EchoMore.
